(** * LangChain custom chatbot: memory manager and chat orchestration

    A shallow embedding of [src/config.py] (SecurityConfig),
    [src/memory_manager.py] (SecureMemoryManager) and [src/chatbot.py]
    (CustomChatbot), with the properties of the design document stated
    and settled against it.

    Conventions.
    - A Python [str] is a [string]; a character is a code point below 256
      (Latin-1), on which [str.lower], [str.strip] and [str.split] are
      modelled exactly.  [len] is the number of characters.
    - [MAX_INPUT_LENGTH] is read from the environment
      ([int(os.getenv("MAX_INPUT_LENGTH", "1000"))]): it is a variable of
      the development, any integer.
    - Mutable objects become explicit state: every method takes the
      manager and returns its result together with the manager it leaves.
    - [datetime.now()] is a reading of the wall clock, passed in by the
      caller of the methods that read it; an ISO-8601 text is identified
      with the instant it denotes.
    - The two language-model collaborators (the conversation chain and the
      summarizer of the summary memory) are variables: each either
      returns or raises, and the chain, which was handed the manager's
      own memory object, may append messages to it.
    - Logging is not modelled. *)

From Stdlib Require Import String Ascii List ZArith NArith Arith Bool Lia.
Import ListNotations.
Open Scope string_scope.
Open Scope list_scope.

(* ================================================================== *)
(** ** Python strings *)

Definition len (s : string) : Z := Z.of_nat (String.length s).

(** [str.isspace] on one character: U+0009..U+000D, U+001C..U+0020,
    U+0085 and U+00A0 are the white-space code points below 256. *)
Definition isspace (c : ascii) : bool :=
  let n := N_of_ascii c in
  ((9 <=? n) && (n <=? 13) || (28 <=? n) && (n <=? 32)
   || (n =? 133) || (n =? 160))%N.

(** [str.lower] on one character: A..Z, and the Latin-1 capitals
    U+00C0..U+00DE except the multiplication sign U+00D7, move up by 32. *)
Definition lower_char (c : ascii) : ascii :=
  let n := N_of_ascii c in
  if ((65 <=? n) && (n <=? 90) || (192 <=? n) && (n <=? 214)
      || (216 <=? n) && (n <=? 222))%N
  then ascii_of_N (n + 32) else c.

Fixpoint lower (s : string) : string :=
  match s with
  | EmptyString => EmptyString
  | String c t => String (lower_char c) (lower t)
  end.

Fixpoint lstrip (s : string) : string :=
  match s with
  | EmptyString => EmptyString
  | String c t => if isspace c then lstrip t else s
  end.

Fixpoint rstrip (s : string) : string :=
  match s with
  | EmptyString => EmptyString
  | String c t =>
      match rstrip t with
      | EmptyString => if isspace c then EmptyString else String c EmptyString
      | t' => String c t'
      end
  end.

(** [s.strip()] *)
Definition strip (s : string) : string := lstrip (rstrip s).

(** [s.split()]: the maximal runs of non-space characters, in order.
    [w] is the run being read. *)
Fixpoint split_run (w s : string) : list string :=
  match s with
  | EmptyString => match w with EmptyString => [] | _ => [w] end
  | String c t =>
      if isspace c
      then match w with
           | EmptyString => split_run EmptyString t
           | _ => w :: split_run EmptyString t
           end
      else split_run (w ++ String c EmptyString)%string t
  end.

Definition split (s : string) : list string := split_run EmptyString s.

(** [p in s] *)
Fixpoint contains (p s : string) : bool :=
  prefix p s ||
  match s with
  | EmptyString => false
  | String _ t => contains p t
  end.

(** [s[:m]], with Python's reading of a negative bound. *)
Definition slice_to (s : string) (m : Z) : string :=
  if (m <? 0)%Z
  then substring 0 (Z.to_nat (len s + m)) s
  else substring 0 (Z.to_nat m) s.

(** ["\n".join(l)] and friends. *)
Fixpoint join (sep : string) (l : list string) : string :=
  match l with
  | [] => EmptyString
  | [x] => x
  | x :: r => (x ++ sep ++ join sep r)%string
  end.

(** [c * n] for a one-character string. *)
Fixpoint replicate (n : nat) (c : ascii) : string :=
  match n with
  | O => EmptyString
  | S n' => String c (replicate n' c)
  end.

Definition all_space (s : string) : Prop :=
  forall c, In c (list_ascii_of_string s) -> isspace c = true.

(** [s.split(sep)] for a one-character separator: the pieces between
    the separators, empty ones included; [w] is the piece being read. *)
Fixpoint split_on_run (sep : ascii) (w s : string) : list string :=
  match s with
  | EmptyString => [w]
  | String c t =>
      if Ascii.eqb c sep then w :: split_on_run sep EmptyString t
      else split_on_run sep (w ++ String c EmptyString)%string t
  end.

Definition split_on (sep : ascii) (s : string) : list string :=
  split_on_run sep EmptyString s.

(** [s.startswith(p)] *)
Definition startswith (s p : string) : bool := prefix p s.

(** [range(0, n, 2)] *)
Definition range_step2 (n : nat) : list nat :=
  map (fun j => 2 * j) (seq 0 (Nat.div2 (n + 1))).

(* ================================================================== *)
(** ** Data model *)

(** A call that either returns or raises; [Raise e] carries [str(e)]. *)
Inductive Result (A : Type) : Type :=
| Ok (a : A)
| Raise (e : string).
Arguments Ok {A} a.
Arguments Raise {A} e.

(** [langchain.schema]: the two kinds of message the program creates. *)
Inductive BaseMessage : Type :=
| HumanMessage (content : string)
| AIMessage (content : string).

Definition content (m : BaseMessage) : string :=
  match m with HumanMessage c => c | AIMessage c => c end.

(** [isinstance(m, HumanMessage)] *)
Definition is_human_message (m : BaseMessage) : bool :=
  match m with HumanMessage _ => true | AIMessage _ => false end.

Definition Timestamp : Type := Z.

(** [conversation_metadata] *)
Record Metadata : Type := {
  start_time : Timestamp;
  message_count : nat;
  total_tokens : nat }.

(** The state behind a [SecureMemoryManager]:
    [memory.chat_memory.messages], the summary memory's [buffer] and its
    own [chat_memory.messages], and the metadata dictionary. *)
Record SecureMemoryManager : Type := {
  messages : list BaseMessage;
  summary_buffer : string;
  summary_messages : list BaseMessage;
  conversation_metadata : Metadata }.

(** The dictionary of [get_memory_stats]. *)
Record MemoryStats : Type := {
  total_messages : nat;
  stats_metadata : Metadata;
  memory_type : string;
  window_size : nat;
  has_summary : bool }.

(** One entry of the export's ["messages"], and the export itself. *)
Record ExportEntry : Type := {
  entry_type : string;
  entry_content : string;
  entry_timestamp : Timestamp }.

Record ExportedData : Type := {
  exported_messages : list ExportEntry;
  exported_metadata : Metadata;
  exported_summary : string }.

(** The dictionary returned by [chat]; an absent key is [None]. *)
Record ChatResult : Type := {
  response : string;
  success : bool;
  error : option string;
  memory_stats : option MemoryStats;
  conversation_summary : option string }.

(** One exchange of [get_conversation_history]. *)
Record HistoryEntry : Type := {
  human : string;
  ai : string }.

(** The dictionary of [get_memory_info]. *)
Record MemoryInfo : Type := {
  info_memory_stats : MemoryStats;
  info_conversation_summary : string;
  info_total_messages : nat;
  info_memory_type : string }.

(** What the chat loop of [cli.py] does with one line read. *)
Inductive CliBranch : Type :=
| SpecialCommand (command : string)
| EmptyInput
| MessageTooLong
| Chat (user_input : string).

(* ================================================================== *)
(** ** The LangChain collaborators *)

(** [ConversationBufferWindowMemory(k=10)]: the window is applied when
    the memory is read, [chat_memory.messages[-k * 2:]]; the message
    list itself is only ever appended to or cleared. *)
Definition memory_k : nat := 10.

Definition buffer (msgs : list BaseMessage) : list BaseMessage :=
  skipn (length msgs - memory_k * 2) msgs.

(** [get_buffer_string(messages, "Human", "AI")] *)
Definition role_prefix (m : BaseMessage) : string :=
  match m with HumanMessage _ => "Human" | AIMessage _ => "AI" end.

Definition newline : string := String (ascii_of_nat 10) EmptyString.

Definition get_buffer_string (msgs : list BaseMessage) : string :=
  join newline
    (map (fun m => (role_prefix m ++ ": " ++ content m)%string) msgs).

(** The language model behind the chain: context and input to text. *)
Definition LLM : Type := list BaseMessage -> string -> Result string.

(** [conversation_chain.predict(input=...)], seen from the chatbot: given
    the shared message list and the input it returns the reply together
    with the messages the chain itself appended to the shared memory, or
    it raises. *)
Definition Chain : Type :=
  list BaseMessage -> string -> Result (string * list BaseMessage).

(** The summary memory's model call,
    [predict_new_summary]: existing summary and new lines to summary. *)
Definition Summarizer : Type := string -> string -> Result string.

(** LangChain's [ConversationChain] over a model: it loads the window,
    calls the model and, when the model returned, saves the exchange
    ([memory.save_context]) before handing the reply back. *)
Definition ConversationChain (llm : LLM) : Chain :=
  fun history input =>
    match llm (buffer history) input with
    | Ok reply => Ok (reply, [HumanMessage input; AIMessage reply])
    | Raise e => Raise e
    end.

(** Test doubles. A chain that only answers; one whose provider fails on
    one input; a summarizer that appends the new lines to the summary. *)
Definition answering_chain (reply : string) : Chain :=
  fun _ _ => Ok (reply, []).

Definition failing_on (bad e reply : string) : Chain :=
  fun _ input => if String.eqb input bad then Raise e else Ok (reply, []).

Definition appending_summarizer : Summarizer :=
  fun summary new_lines => Ok (summary ++ new_lines)%string.

Definition constant_llm (reply : string) : LLM := fun _ _ => Ok reply.

Definition failing_summarizer (e : string) : Summarizer :=
  fun _ _ => Raise e.

(** The value of [MAX_INPUT_LENGTH] when the environment sets none. *)
Definition DEFAULT_MAX_INPUT_LENGTH : Z := 1000.

(** [ALLOWED_FILE_TYPES] when the environment sets none:
    ["txt,pdf,doc,docx".split(",")]. *)
Definition DEFAULT_ALLOWED_FILE_TYPES : list string :=
  split_on ","%char "txt,pdf,doc,docx".

(** Inputs and clocks used in the examples. *)
Definition hi6 : list string := ["hi"; "hi"; "hi"; "hi"; "hi"; "hi"].

Definition ticking (start : Z) : nat -> Timestamp :=
  fun i => (start + Z.of_nat i)%Z.

(** Two managers holding the same human turn among different assistant
    messages, with an empty summary memory. *)
Definition hi_ok : SecureMemoryManager :=
  {| messages := [HumanMessage "hi"; AIMessage "ok"];
     summary_buffer := "";
     summary_messages := [];
     conversation_metadata :=
       {| start_time := 0%Z; message_count := 2; total_tokens := 2 |} |}.

Definition hi_long : SecureMemoryManager :=
  {| messages := [AIMessage "welcome"; HumanMessage "hi";
                  AIMessage "a much longer answer"];
     summary_buffer := "";
     summary_messages := [];
     conversation_metadata :=
       {| start_time := 0%Z; message_count := 3; total_tokens := 6 |} |}.

(* ================================================================== *)
(** ** The program *)

Section Chatbot.

Variable MAX_INPUT_LENGTH : Z.
Variable predict : Chain.
Variable summarize : Summarizer.

(** *** config.py *)

(** [SecurityConfig.validate_input_length] *)
Definition validate_input_length (text : string) : bool :=
  (len text <=? MAX_INPUT_LENGTH)%Z.

(** *** memory_manager.py *)

(** [SecureMemoryManager.__init__] *)
Definition init (now : Timestamp) : SecureMemoryManager :=
  {| messages := [];
     summary_buffer := "";
     summary_messages := [];
     conversation_metadata :=
       {| start_time := now; message_count := 0; total_tokens := 0 |} |}.

Definition _sanitize_message (message : string) : string :=
  let sanitized := strip message in
  if (len sanitized >? MAX_INPUT_LENGTH)%Z
  then slice_to sanitized MAX_INPUT_LENGTH
  else sanitized.

Definition add_message (message : string) (is_human : bool)
    (self : SecureMemoryManager) : bool * SecureMemoryManager :=
  if negb (validate_input_length message) then (false, self)
  else
    let sanitized_message := _sanitize_message message in
    let msg_obj :=
      if is_human then HumanMessage sanitized_message
      else AIMessage sanitized_message in
    let md := conversation_metadata self in
    (true,
     {| messages := messages self ++ [msg_obj];
        summary_buffer := summary_buffer self;
        summary_messages := summary_messages self;
        conversation_metadata :=
          {| start_time := start_time md;
             message_count := message_count md + 1;
             total_tokens :=
               total_tokens md + length (split sanitized_message) |} |}).

Definition get_memory_variables (self : SecureMemoryManager)
    : list BaseMessage :=
  buffer (messages self).

(** [summary_memory.save_context({"input": i}, {"output": o})]: the pair
    goes to the summary memory's own message list, then the buffer is
    replaced by the summarizer's answer on the old buffer and the last
    two messages.  When the summarizer raises the pair stays. *)
Definition save_context (input output : string)
    (self : SecureMemoryManager) : Result unit * SecureMemoryManager :=
  let msgs := summary_messages self ++ [HumanMessage input; AIMessage output] in
  let self1 :=
    {| messages := messages self;
       summary_buffer := summary_buffer self;
       summary_messages := msgs;
       conversation_metadata := conversation_metadata self |} in
  match summarize (summary_buffer self)
          (get_buffer_string (skipn (length msgs - 2) msgs)) with
  | Ok new_summary =>
      (Ok tt,
       {| messages := messages self;
          summary_buffer := new_summary;
          summary_messages := msgs;
          conversation_metadata := conversation_metadata self |})
  | Raise e => (Raise e, self1)
  end.

(** The [for message in messages] loop of [get_conversation_summary]. *)
Fixpoint summary_loop (msgs : list BaseMessage)
    (self : SecureMemoryManager) : Result unit * SecureMemoryManager :=
  match msgs with
  | [] => (Ok tt, self)
  | message :: rest =>
      if is_human_message message then
        match save_context (content message) "" self with
        | (Ok _, self1) => summary_loop rest self1
        | (Raise e, self1) => (Raise e, self1)
        end
      else summary_loop rest self
  end.

(** The value under ["history"] is the summary memory's buffer (with
    [return_messages=True] the library wraps it in one system message;
    it is identified with its text here). *)
Definition get_conversation_summary (self : SecureMemoryManager)
    : string * SecureMemoryManager :=
  match messages self with
  | [] => ("No conversation history available.", self)
  | msgs =>
      match summary_loop msgs self with
      | (Ok _, self1) => (summary_buffer self1, self1)
      | (Raise _, self1) => ("Error generating conversation summary.", self1)
      end
  end.

Definition clear_memory (now : Timestamp) (self : SecureMemoryManager)
    : bool * SecureMemoryManager :=
  (true,
   {| messages := [];
      summary_buffer := "";
      summary_messages := [];
      conversation_metadata :=
        {| start_time := now; message_count := 0; total_tokens := 0 |} |}).

Definition get_memory_stats (self : SecureMemoryManager) : MemoryStats :=
  {| total_messages := length (messages self);
     stats_metadata := conversation_metadata self;
     memory_type := "ConversationBufferWindowMemory";
     window_size := 10;
     has_summary := (0 <? length (summary_messages self))%nat |}.

(** The list comprehension of [export_memory]; [clock i] is what
    [datetime.now()] reads when the entry of message [i] is built. *)
Fixpoint export_entries (clock : nat -> Timestamp) (i : nat)
    (msgs : list BaseMessage) : list ExportEntry :=
  match msgs with
  | [] => []
  | msg :: rest =>
      {| entry_type := if is_human_message msg then "human" else "ai";
         entry_content := content msg;
         entry_timestamp := clock i |}
      :: export_entries clock (S i) rest
  end.

Definition export_memory (clock : nat -> Timestamp)
    (self : SecureMemoryManager) : ExportedData * SecureMemoryManager :=
  let entries := export_entries clock 0 (messages self) in
  let metadata := conversation_metadata self in
  let '(summary, self1) := get_conversation_summary self in
  ({| exported_messages := entries;
      exported_metadata := metadata;
      exported_summary := summary |}, self1).

(** *** chatbot.py *)

Definition dangerous_patterns : list string :=
  [ "script"; "javascript:"; "data:"; "vbscript:";
    "<script"; "</script>"; "onload="; "onerror=" ].

Definition _validate_input (user_input : string) : bool :=
  if negb (validate_input_length user_input) then false
  else if String.eqb (strip user_input) "" then false
  else
    let input_lower := lower user_input in
    negb (existsb (fun pattern => contains pattern input_lower)
            dangerous_patterns).

Definition validation_failed : ChatResult :=
  {| response := "I'm sorry, but your input doesn't meet our security requirements. Please try a shorter message.";
     success := false;
     error := Some "Input validation failed";
     memory_stats := None;
     conversation_summary := None |}.

Definition memory_write_failed : ChatResult :=
  {| response := "I'm sorry, but I couldn't process your message. Please try again.";
     success := false;
     error := Some "Failed to add message to memory";
     memory_stats := None;
     conversation_summary := None |}.

Definition internal_error (e : string) : ChatResult :=
  {| response := "I'm sorry, but I encountered an error. Please try again.";
     success := false;
     error := Some e;
     memory_stats := None;
     conversation_summary := None |}.

(** The chain holds the manager's memory object: what it appended is in
    the list by the time the reply is stored. *)
Definition chain_saved (saved : list BaseMessage)
    (self : SecureMemoryManager) : SecureMemoryManager :=
  {| messages := messages self ++ saved;
     summary_buffer := summary_buffer self;
     summary_messages := summary_messages self;
     conversation_metadata := conversation_metadata self |}.

Definition chat (self : SecureMemoryManager) (user_input : string)
    : ChatResult * SecureMemoryManager :=
  if negb (_validate_input user_input) then (validation_failed, self)
  else
    let '(added, self1) := add_message user_input true self in
    if negb added then (memory_write_failed, self1)
    else
      match predict (messages self1) user_input with
      | Raise e => (internal_error e, self1)
      | Ok (reply, saved) =>
          let self2 := chain_saved saved self1 in
          let '(_, self3) := add_message reply false self2 in
          let stats := get_memory_stats self3 in
          let '(summary, self4) := get_conversation_summary self3 in
          ({| response := reply;
              success := true;
              error := None;
              memory_stats := Some stats;
              conversation_summary := Some summary |}, self4)
      end.

Definition clear_conversation (now : Timestamp)
    (self : SecureMemoryManager) : bool * SecureMemoryManager :=
  clear_memory now self.

Definition export_conversation (clock : nat -> Timestamp)
    (self : SecureMemoryManager) : ExportedData * SecureMemoryManager :=
  export_memory clock self.

(** Successive [chat] calls of one session, with their results. *)
Fixpoint chats (self : SecureMemoryManager) (inputs : list string)
    : list ChatResult * SecureMemoryManager :=
  match inputs with
  | [] => ([], self)
  | user_input :: rest =>
      let '(r, self1) := chat self user_input in
      let '(rs, self2) := chats self1 rest in
      (r :: rs, self2)
  end.

(** The ["type"] written for a message, and the reading of "the roles
    alternate human/assistant": human first, then strictly in turn. *)
Definition role_tag (m : BaseMessage) : string :=
  if is_human_message m then "human" else "ai".


(** A chain that only answers, within the length limit: it appends
    nothing to the shared memory itself. *)
Definition chain_only_answers : Prop :=
  forall history input reply saved,
    predict history input = Ok (reply, saved) ->
    saved = [] /\ (len reply <= MAX_INPUT_LENGTH)%Z.

(** The two turns a call leaves when both appends go through. *)
Definition turn_pair (ur : string * ChatResult) : list BaseMessage :=
  [HumanMessage (strip (fst ur)); AIMessage (strip (response (snd ur)))].

(** *** Further operations of config.py, chatbot.py and cli.py *)

Variable ALLOWED_FILE_TYPES : list string.

(** [SecurityConfig.validate_file_type] *)
Definition validate_file_type (filename : string) : bool :=
  let file_extension := lower (last (split_on "."%char filename) "") in
  existsb (String.eqb file_extension) ALLOWED_FILE_TYPES.

(** [CustomChatbot.get_conversation_history] *)
Definition get_conversation_history (self : SecureMemoryManager)
    : list HistoryEntry :=
  let msgs := messages self in
  flat_map
    (fun i =>
       if (i + 1 <? length msgs)%nat
       then [ {| human := content (nth i msgs (HumanMessage ""));
                 ai := content (nth (i + 1) msgs (HumanMessage "")) |} ]
       else [])
    (range_step2 (length msgs)).

(** [CustomChatbot.get_memory_info] *)
Definition get_memory_info (self : SecureMemoryManager)
    : MemoryInfo * SecureMemoryManager :=
  let stats := get_memory_stats self in
  let '(summary, self1) := get_conversation_summary self in
  ({| info_memory_stats := stats;
      info_conversation_summary := summary;
      info_total_messages := length (messages self1);
      info_memory_type := "ConversationBufferWindowMemory with Summary" |},
   self1).

(** The branch [interactive_chat] takes on one line: the line is
    stripped, a leading slash makes it a command, an empty line is
    skipped, an over-long one is refused, the rest goes to [chat]. *)
Definition interactive_chat_branch (line : string) : CliBranch :=
  let user_input := strip line in
  if startswith user_input "/" then SpecialCommand user_input
  else if String.eqb user_input "" then EmptyInput
  else if (len user_input >? MAX_INPUT_LENGTH)%Z then MessageTooLong
  else Chat user_input.

(** A chain that appends nothing to the shared memory itself. *)
Definition chain_saves_nothing : Prop :=
  forall history input reply saved,
    predict history input = Ok (reply, saved) -> saved = [].

(** A chain that saves each exchange itself, the input and the reply
    as it got and gave them; and a chain whose replies fit the limit. *)
Definition chain_saves_exchange : Prop :=
  forall history input reply saved,
    predict history input = Ok (reply, saved) ->
    saved = [HumanMessage input; AIMessage reply].

Definition chain_replies_fit : Prop :=
  forall history input reply saved,
    predict history input = Ok (reply, saved) ->
    (len reply <= MAX_INPUT_LENGTH)%Z.

(** The four messages a call leaves with such a chain. *)
Definition turn_quad (ur : string * ChatResult) : list BaseMessage :=
  [HumanMessage (strip (fst ur)); HumanMessage (fst ur);
   AIMessage (response (snd ur)); AIMessage (strip (response (snd ur)))].

(** The words of a stored message, as [add_message] counts them. *)
Definition word_count (m : BaseMessage) : nat := length (split (content m)).

(** The pairs of a list taken two by two, a last single one dropped. *)
Fixpoint exchanges (msgs : list BaseMessage) : list HistoryEntry :=
  match msgs with
  | a :: b :: rest =>
      {| human := content a; ai := content b |} :: exchanges rest
  | _ => []
  end.

(** *** Reference definitions for the summary *)

(** What the summary memory's buffer becomes when the texts are folded
    into [digest] one after the other, each as the exchange
    [Human: text / AI: ] handed to the summarizer. *)
Fixpoint refold (texts : list string) (digest : string) : Result string :=
  match texts with
  | [] => Ok digest
  | text :: rest =>
      match summarize digest
              (get_buffer_string [HumanMessage text; AIMessage ""]) with
      | Ok digest' => refold rest digest'
      | Raise e => Raise e
      end
  end.

Definition digest_of (r : Result string) : string :=
  match r with
  | Ok d => d
  | Raise _ => "Error generating conversation summary."
  end.

Definition human_texts (msgs : list BaseMessage) : list string :=
  map content (filter is_human_message msgs).

(* ================================================================== *)
(** ** Facts about the string operations *)

Lemma lstrip_length (s : string) :
  (String.length (lstrip s) <= String.length s)%nat.
Proof.
  induction s as [|c t IH]; simpl; [lia|].
  destruct (isspace c); simpl; lia.
Qed.

Lemma rstrip_length (s : string) :
  (String.length (rstrip s) <= String.length s)%nat.
Proof.
  induction s as [|c t IH]; simpl; [lia|].
  destruct (rstrip t) as [|c' t'] eqn:E.
  - destruct (isspace c); simpl; lia.
  - simpl in *; lia.
Qed.

Lemma strip_len (s : string) : (len (strip s) <= len s)%Z.
Proof.
  unfold len, strip.
  pose proof (lstrip_length (rstrip s)).
  pose proof (rstrip_length s). lia.
Qed.

Lemma rstrip_empty_iff (s : string) :
  rstrip s = EmptyString <-> all_space s.
Proof.
  unfold all_space.
  induction s as [|c t IH]; simpl.
  - split; [intros _ c []|reflexivity].
  - destruct (rstrip t) as [|c' t'] eqn:E.
    + destruct (isspace c) eqn:Hc; split.
      * intros _ x [<-|Hx]; [exact Hc|]. now apply IH.
      * reflexivity.
      * discriminate.
      * intros H. specialize (H c (or_introl eq_refl)). congruence.
    + split; [discriminate|].
      intros H.
      assert (Ht : String c' t' = EmptyString)
        by (apply IH; intros x Hx; apply H; now right).
      discriminate.
Qed.

Lemma lstrip_empty_iff (s : string) :
  lstrip s = EmptyString <-> all_space s.
Proof.
  unfold all_space.
  induction s as [|c t IH]; simpl.
  - split; [intros _ c []|reflexivity].
  - destruct (isspace c) eqn:Hc; split.
    + intros H x [<-|Hx]; [exact Hc|]. now apply IH.
    + intros H. apply IH. intros x Hx. apply H. now right.
    + discriminate.
    + intros H. specialize (H c (or_introl eq_refl)). congruence.
Qed.

Lemma rstrip_chars (s : string) (c : ascii) :
  In c (list_ascii_of_string (rstrip s)) -> In c (list_ascii_of_string s).
Proof.
  induction s as [|a t IH]; simpl; [tauto|].
  destruct (rstrip t) as [|c' t'] eqn:E.
  - destruct (isspace a); simpl; tauto.
  - simpl in *. tauto.
Qed.

(** [s.strip()] is empty exactly when [s] is empty or all white space. *)
Lemma strip_empty_iff (s : string) :
  strip s = EmptyString <-> all_space s.
Proof.
  unfold strip. split.
  - intros H. apply lstrip_empty_iff in H.
    apply rstrip_empty_iff.
    destruct (rstrip s) as [|c t] eqn:E; [reflexivity|].
    exfalso.
    (* a non-empty right-stripped string ends in a non-space *)
    assert (Hlast : forall u, rstrip u <> EmptyString ->
              exists x, In x (list_ascii_of_string (rstrip u))
                        /\ isspace x = false).
    { clear. induction u as [|a v IH]; simpl; [congruence|].
      destruct (rstrip v) as [|c' t'] eqn:E.
      - destruct (isspace a) eqn:Ha; [congruence|].
        intros _. exists a. simpl. auto.
      - intros _. destruct IH as [x [Hx Hs]]; [discriminate|].
        exists x. simpl in *. auto. }
    destruct (Hlast s) as [x [Hx Hs]]; [congruence|].
    rewrite E in Hx. specialize (H x Hx). congruence.
  - intros H. apply rstrip_empty_iff in H. now rewrite H.
Qed.

Lemma prefix_spec (p s : string) :
  prefix p s = true <-> exists b, s = (p ++ b)%string.
Proof.
  revert s. induction p as [|c p IH]; intros s; simpl.
  - split; [intros _; now exists s|now destruct s].
  - destruct s as [|d s].
    + split; [discriminate|intros [b Hb]; discriminate].
    + simpl. destruct (ascii_dec c d) as [->|Hn].
      * rewrite IH. split; intros [b Hb]; exists b; congruence.
      * split; [discriminate|]. intros [b Hb]. congruence.
Qed.

(** [p in s] holds exactly when [s] is [a + p + b] for some [a], [b]. *)
Lemma contains_spec (p s : string) :
  contains p s = true <-> exists a b, s = (a ++ p ++ b)%string.
Proof.
  induction s as [|c s IH].
  - change (contains p EmptyString) with (prefix p EmptyString || false).
    rewrite orb_false_r, prefix_spec. split.
    + intros [b Hb]. now exists EmptyString, b.
    + intros [a [b Hab]]. destruct a; [now exists b|discriminate].
  - change (contains p (String c s))
      with (prefix p (String c s) || contains p s).
    rewrite orb_true_iff, prefix_spec, IH. split.
    + intros [[b Hb]|[a [b Hab]]].
      * now exists EmptyString, b.
      * exists (String c a), b. simpl. now rewrite Hab.
    + intros [a [b Hab]]. destruct a as [|d a].
      * left. now exists b.
      * right. simpl in Hab. exists a, b. congruence.
Qed.

Lemma replicate_length (n : nat) (c : ascii) :
  String.length (replicate n c) = n.
Proof. induction n; simpl; congruence. Qed.

Lemma lower_app (a b : string) :
  lower (a ++ b) = (lower a ++ lower b)%string.
Proof. induction a as [|c a IH]; simpl; congruence. Qed.

Lemma all_space_nil : all_space EmptyString.
Proof. intros c []. Qed.

Lemma all_space_cons (c : ascii) (s : string) :
  isspace c = true -> all_space s -> all_space (String c s).
Proof. intros Hc Hs x [<-|Hx]; [exact Hc|now apply Hs]. Qed.

Lemma lstrip_spec (s : string) :
  exists a, s = (a ++ lstrip s)%string /\ all_space a
    /\ forall c t, lstrip s = String c t -> isspace c = false.
Proof.
  induction s as [|c s [a [Hs [Ha Hf]]]]; simpl.
  - exists EmptyString. repeat split; [apply all_space_nil|discriminate].
  - destruct (isspace c) eqn:Hc.
    + exists (String c a). simpl. rewrite <- Hs.
      repeat split; [now apply all_space_cons|exact Hf].
    + exists EmptyString. repeat split; [apply all_space_nil|].
      intros d t [= <- _]. exact Hc.
Qed.

Lemma rstrip_spec (s : string) :
  exists b, s = (rstrip s ++ b)%string /\ all_space b
    /\ forall t c, rstrip s = (t ++ String c EmptyString)%string ->
         isspace c = false.
Proof.
  induction s as [|c s [b [Hs [Hb Hl]]]]; simpl.
  - exists EmptyString. repeat split; [apply all_space_nil|].
    intros [|? ?] ?; discriminate.
  - destruct (rstrip s) as [|c' t'] eqn:E.
    + destruct (isspace c) eqn:Hc.
      * exists (String c b). simpl in Hs. subst s.
        repeat split; [now apply all_space_cons|].
        intros [|? ?] ?; discriminate.
      * exists b. simpl in *. subst s.
        repeat split; [exact Hb|].
        intros [|? [|? ?]] d; simpl; intros [= ]; congruence.
    + exists b. simpl in *. rewrite <- Hs.
      repeat split; [exact Hb|].
      intros [|x t] d; simpl; [discriminate|].
      intros [= _ Ht]. now apply (Hl t d).
Qed.

(** [s.strip()] is [s] without a white-space prefix and a white-space
    suffix, and neither starts nor ends with white space. *)
Lemma strip_spec (s : string) :
  exists a b, s = (a ++ strip s ++ b)%string
    /\ all_space a /\ all_space b
    /\ (forall c t, strip s = String c t -> isspace c = false)
    /\ (forall t c, strip s = (t ++ String c EmptyString)%string ->
          isspace c = false).
Proof.
  unfold strip.
  destruct (rstrip_spec s) as [b [Hs [Hb Hl]]].
  destruct (lstrip_spec (rstrip s)) as [a [Hr [Ha Hf]]].
  exists a, b. repeat split; try assumption.
  - rewrite Hs at 1. rewrite Hr at 1.
    clear. induction a; simpl; congruence.
  - intros t c Ht. apply (Hl (a ++ t)%string c).
    rewrite Hr at 1. rewrite Ht.
    clear. induction a; simpl; congruence.
Qed.

(* ================================================================== *)
(** ** The validator and the append *)

Lemma validate_input_length_iff (text : string) :
  validate_input_length text = true <-> (len text <= MAX_INPUT_LENGTH)%Z.
Proof. unfold validate_input_length. apply Z.leb_le. Qed.

(** Once the length check has passed the truncation of
    [_sanitize_message] has nothing to cut. *)
Lemma sanitize_within_limit (message : string) :
  validate_input_length message = true ->
  _sanitize_message message = strip message.
Proof.
  intros H. apply validate_input_length_iff in H.
  unfold _sanitize_message.
  pose proof (strip_len message).
  destruct (Z.gtb_spec (len (strip message)) MAX_INPUT_LENGTH); [lia|reflexivity].
Qed.

Lemma validate_input_length_ok (u : string) :
  _validate_input u = true -> validate_input_length u = true.
Proof.
  unfold _validate_input.
  destruct (validate_input_length u); [reflexivity|discriminate].
Qed.

Lemma add_message_rejected (message : string) (is_human : bool)
    (self : SecureMemoryManager) :
  validate_input_length message = false ->
  add_message message is_human self = (false, self).
Proof. intros H. unfold add_message. now rewrite H. Qed.

Lemma add_message_accepted (message : string) (is_human : bool)
    (self : SecureMemoryManager) :
  validate_input_length message = true ->
  add_message message is_human self =
  (true,
   {| messages :=
        messages self ++
        [if is_human then HumanMessage (strip message)
         else AIMessage (strip message)];
      summary_buffer := summary_buffer self;
      summary_messages := summary_messages self;
      conversation_metadata :=
        {| start_time := start_time (conversation_metadata self);
           message_count := message_count (conversation_metadata self) + 1;
           total_tokens :=
             total_tokens (conversation_metadata self)
             + length (split (strip message)) |} |}).
Proof.
  intros H. unfold add_message.
  rewrite H, (sanitize_within_limit _ H). reflexivity.
Qed.

Lemma validate_input_spec (u : string) :
  _validate_input u = false <->
  (len u > MAX_INPUT_LENGTH)%Z
  \/ all_space u
  \/ exists p, In p dangerous_patterns
       /\ exists a b, lower u = (a ++ p ++ b)%string.
Proof.
  unfold _validate_input.
  destruct (validate_input_length u) eqn:Hlen; cbn [negb].
  - apply validate_input_length_iff in Hlen.
    destruct (String.eqb_spec (strip u) "") as [He|He].
    + split; [|reflexivity]. intros _. right. left.
      now apply strip_empty_iff.
    + rewrite negb_false_iff, existsb_exists. split.
      * intros [p [Hp Hc]]. right. right. exists p. split; [exact Hp|].
        now apply contains_spec.
      * intros [H|[H|[p [Hp Hc]]]].
        -- lia.
        -- apply strip_empty_iff in H. contradiction.
        -- exists p. split; [exact Hp|]. now apply contains_spec.
  - split; [|reflexivity]. intros _. left.
    unfold validate_input_length in Hlen.
    apply Z.leb_gt in Hlen. lia.
Qed.

(** C3. [_validate_input] is a function of its argument and of
    [MAX_INPUT_LENGTH] alone, and it answers [False] exactly when the
    input is longer than [MAX_INPUT_LENGTH], or is empty or white space
    only, or its lower-cased text contains one of the eight patterns
    ['script', 'javascript:', 'data:', 'vbscript:', '<script',
    '</script>', 'onload=', 'onerror=']. *)
Theorem validate_input_false_iff (u : string) :
  dangerous_patterns =
    [ "script"; "javascript:"; "data:"; "vbscript:";
      "<script"; "</script>"; "onload="; "onerror=" ]
  /\
  (_validate_input u = false <->
   (len u > MAX_INPUT_LENGTH)%Z
   \/ all_space u
   \/ exists p, In p dangerous_patterns
        /\ exists a b, lower u = (a ++ p ++ b)%string).
Proof. split; [reflexivity|apply validate_input_spec]. Qed.

(** C2. An input longer than [MAX_INPUT_LENGTH], or with a substring
    that is a denylisted pattern up to letter case, makes [chat] return
    the validation failure ([success] false, error "Input validation
    failed") and leaves the manager as it was: no message is appended
    and [total_messages] is unchanged. *)
Theorem chat_rejects_invalid_input (self : SecureMemoryManager) (u : string) :
  (len u > MAX_INPUT_LENGTH)%Z
  \/ (exists p a s b, In p dangerous_patterns
        /\ u = (a ++ s ++ b)%string /\ lower s = p) ->
  success (fst (chat self u)) = false
  /\ error (fst (chat self u)) = Some "Input validation failed"
  /\ fst (chat self u) = validation_failed
  /\ snd (chat self u) = self
  /\ messages (snd (chat self u)) = messages self
  /\ total_messages (get_memory_stats (snd (chat self u)))
     = total_messages (get_memory_stats self).
Proof.
  intros H.
  assert (Hv : _validate_input u = false).
  { apply validate_input_spec.
    destruct H as [H|[p [a [w [b [Hp [-> <-]]]]]]]; [now left|].
    right. right. exists (lower w). split; [exact Hp|].
    exists (lower a), (lower b). now rewrite !lower_app. }
  unfold chat. rewrite Hv. simpl. repeat split.
Qed.

(** C10. When [add_message] accepts a message, the turn it stores holds
    the message without its leading and trailing white space (which is
    what [_sanitize_message] leaves: the truncation that follows has
    nothing to cut), after the turns already there; [message_count]
    grows by one and [total_tokens] by the number of white-space
    separated words of the stored text. *)
Theorem add_message_stores_sanitized (message : string) (is_human : bool)
    (self : SecureMemoryManager) :
  fst (add_message message is_human self) = true ->
  let self' := snd (add_message message is_human self) in
  exists turn,
    messages self' = messages self ++ [turn]
    /\ is_human_message turn = is_human
    /\ content turn = _sanitize_message message
    /\ content turn = strip message
    /\ (exists a b, message = (a ++ content turn ++ b)%string
          /\ all_space a /\ all_space b)
    /\ (forall c t, content turn = String c t -> isspace c = false)
    /\ (forall t c, content turn = (t ++ String c EmptyString)%string ->
          isspace c = false)
    /\ message_count (conversation_metadata self')
       = message_count (conversation_metadata self) + 1
    /\ total_tokens (conversation_metadata self')
       = total_tokens (conversation_metadata self)
         + length (split (content turn))
    /\ start_time (conversation_metadata self')
       = start_time (conversation_metadata self).
Proof.
  intros Hacc.
  destruct (validate_input_length message) eqn:Hlen.
  - rewrite (add_message_accepted _ is_human self Hlen). simpl.
    rewrite (sanitize_within_limit _ Hlen).
    exists (if is_human then HumanMessage (strip message)
            else AIMessage (strip message)).
    destruct (strip_spec message) as [a [b [Hm [Ha [Hb [Hf Hl]]]]]].
    assert (Hc : content (if is_human then HumanMessage (strip message)
                          else AIMessage (strip message)) = strip message)
      by now destruct is_human.
    rewrite Hc.
    split; [reflexivity|]. split; [now destruct is_human|].
    split; [reflexivity|]. split; [reflexivity|].
    split; [now exists a, b|]. split; [exact Hf|]. split; [exact Hl|].
    repeat split.
  - rewrite (add_message_rejected _ is_human self Hlen) in Hacc.
    discriminate.
Qed.

(* ================================================================== *)
(** ** The summary *)

Lemma last_two_of_app (l : list BaseMessage) (a b : BaseMessage) :
  skipn (length (l ++ [a; b]) - 2) (l ++ [a; b]) = [a; b].
Proof.
  rewrite length_app. simpl length.
  replace (length l + 2 - 2) with (length l + 0) by lia.
  rewrite skipn_app, Nat.add_0_r, skipn_all.
  replace (length l - length l) with 0 by lia. reflexivity.
Qed.

Lemma save_context_messages (input output : string)
    (self : SecureMemoryManager) :
  messages (snd (save_context input output self)) = messages self
  /\ conversation_metadata (snd (save_context input output self))
     = conversation_metadata self
  /\ summary_messages (snd (save_context input output self))
     = summary_messages self ++ [HumanMessage input; AIMessage output].
Proof.
  unfold save_context.
  destruct (summarize _ _); simpl; auto.
Qed.

Lemma save_context_buffer (input : string) (self : SecureMemoryManager) :
  match summarize (summary_buffer self)
          (get_buffer_string [HumanMessage input; AIMessage ""]) with
  | Ok d =>
      fst (save_context input "" self) = Ok tt
      /\ summary_buffer (snd (save_context input "" self)) = d
  | Raise e => fst (save_context input "" self) = Raise e
  end.
Proof.
  unfold save_context. rewrite last_two_of_app.
  destruct (summarize _ _); simpl; auto.
Qed.

(** The loop leaves the chat messages and the metadata alone. *)
Lemma summary_loop_messages (msgs : list BaseMessage)
    (self : SecureMemoryManager) :
  messages (snd (summary_loop msgs self)) = messages self
  /\ conversation_metadata (snd (summary_loop msgs self))
     = conversation_metadata self.
Proof.
  revert self. induction msgs as [|m rest IH]; intros self; simpl; [auto|].
  destruct (is_human_message m); [|apply IH].
  destruct (save_context_messages (content m) "" self) as [Hm [Hc _]].
  destruct (save_context (content m) "" self) as [[[]|e] self1]; simpl in *.
  - destruct (IH self1) as [H1 H2]. split; congruence.
  - auto.
Qed.

(** The loop is the fold of the summarizer over the human texts,
    starting from the buffer it finds. *)
Lemma summary_loop_refold (msgs : list BaseMessage)
    (self : SecureMemoryManager) :
  match refold (human_texts msgs) (summary_buffer self) with
  | Ok d =>
      fst (summary_loop msgs self) = Ok tt
      /\ summary_buffer (snd (summary_loop msgs self)) = d
  | Raise e => fst (summary_loop msgs self) = Raise e
  end.
Proof.
  revert self. unfold human_texts.
  induction msgs as [|m rest IH]; intros self; simpl; [auto|].
  destruct (is_human_message m); simpl; [|apply IH].
  pose proof (save_context_buffer (content m) self) as Hs.
  destruct (summarize (summary_buffer self) _) as [d|e].
  - destruct Hs as [H1 H2].
    destruct (save_context (content m) "" self) as [[[]|e] self1];
      simpl in *; [|discriminate].
    subst d. apply IH.
  - destruct (save_context (content m) "" self) as [[[]|e'] self1];
      simpl in *; [discriminate|exact Hs].
Qed.

(** The summary memory's own message list after the loop depends on the
    human texts and on the list it started from. *)
Lemma summary_loop_humans_only (msgs msgs' : list BaseMessage)
    (self : SecureMemoryManager) :
  filter is_human_message msgs = filter is_human_message msgs' ->
  summary_loop msgs self = summary_loop msgs' self.
Proof.
  assert (H : forall l s,
             summary_loop l s = summary_loop (filter is_human_message l) s).
  { induction l as [|m rest IH]; intros s; simpl; [reflexivity|].
    destruct (is_human_message m) eqn:Hm; simpl; [|apply IH].
    rewrite Hm.
    destruct (save_context (content m) "" s) as [[[]|e] s1]; auto. }
  intros Hf. rewrite (H msgs), (H msgs'), Hf. reflexivity.
Qed.

Lemma get_conversation_summary_empty (self : SecureMemoryManager) :
  messages self = [] ->
  get_conversation_summary self
  = ("No conversation history available.", self).
Proof. intros H. unfold get_conversation_summary. now rewrite H. Qed.

Lemma get_conversation_summary_loop (self : SecureMemoryManager) :
  messages self <> [] ->
  get_conversation_summary self
  = (match fst (summary_loop (messages self) self) with
     | Ok _ => summary_buffer (snd (summary_loop (messages self) self))
     | Raise _ => "Error generating conversation summary."
     end,
     snd (summary_loop (messages self) self)).
Proof.
  intros H. unfold get_conversation_summary.
  destruct (messages self) as [|m rest] eqn:E; [congruence|].
  destruct (summary_loop (m :: rest) self) as [[[]|e] self1]; reflexivity.
Qed.

Lemma get_conversation_summary_messages (self : SecureMemoryManager) :
  messages (snd (get_conversation_summary self)) = messages self
  /\ conversation_metadata (snd (get_conversation_summary self))
     = conversation_metadata self.
Proof.
  assert (E : messages self = [] \/ messages self <> [])
    by (destruct (messages self); [left|right]; congruence).
  destruct E as [E|E].
  - rewrite get_conversation_summary_empty by exact E. simpl. auto.
  - rewrite get_conversation_summary_loop by exact E. simpl.
    apply summary_loop_messages.
Qed.

Lemma get_conversation_summary_refold (self : SecureMemoryManager) :
  messages self <> [] ->
  fst (get_conversation_summary self)
  = digest_of (refold (human_texts (messages self)) (summary_buffer self))
  /\ forall d,
       refold (human_texts (messages self)) (summary_buffer self) = Ok d ->
       summary_buffer (snd (get_conversation_summary self)) = d.
Proof.
  intros H. rewrite get_conversation_summary_loop by exact H. simpl.
  pose proof (summary_loop_refold (messages self) self) as L.
  destruct (refold _ _) as [d|e].
  - destruct L as [L1 L2]. rewrite L1. split; [exact L2|].
    intros d' [= <-]. exact L2.
  - rewrite L. split; [reflexivity|discriminate].
Qed.

(** The loop reads the summary memory only. *)
Lemma summary_loop_agree (msgs : list BaseMessage) :
  forall self self',
    summary_buffer self = summary_buffer self' ->
    summary_messages self = summary_messages self' ->
    fst (summary_loop msgs self) = fst (summary_loop msgs self')
    /\ summary_buffer (snd (summary_loop msgs self))
       = summary_buffer (snd (summary_loop msgs self'))
    /\ summary_messages (snd (summary_loop msgs self))
       = summary_messages (snd (summary_loop msgs self')).
Proof.
  induction msgs as [|m rest IH]; intros self self' Hb Hm; simpl; [auto|].
  destruct (is_human_message m); [|now apply IH].
  unfold save_context. rewrite Hb, Hm.
  destruct (summarize _ _); simpl; [|auto].
  apply IH; reflexivity.
Qed.

(** C7. With an empty message list the summary is the fixed text "No
    conversation history available." and nothing changes.  Otherwise
    the summary is the summarizer folded over the texts of the human
    messages only: two message lists with the same human messages, read
    from the same summary memory, give the same summary and leave the
    same summary memory, whatever assistant messages they hold. *)
Theorem summary_reads_human_turns_only :
  (forall self, messages self = [] ->
     get_conversation_summary self
     = ("No conversation history available.", self))
  /\
  (forall self, messages self <> [] ->
     fst (get_conversation_summary self)
     = digest_of (refold (human_texts (messages self))
                    (summary_buffer self)))
  /\
  (forall self self',
     messages self <> [] -> messages self' <> [] ->
     filter is_human_message (messages self)
     = filter is_human_message (messages self') ->
     summary_buffer self = summary_buffer self' ->
     summary_messages self = summary_messages self' ->
     fst (get_conversation_summary self)
     = fst (get_conversation_summary self')
     /\ summary_buffer (snd (get_conversation_summary self))
        = summary_buffer (snd (get_conversation_summary self'))
     /\ summary_messages (snd (get_conversation_summary self))
        = summary_messages (snd (get_conversation_summary self'))).
Proof.
  split; [exact get_conversation_summary_empty|].
  split; [intros self H; now apply get_conversation_summary_refold|].
  intros self self' Hne Hne' Hf Hb Hm.
  rewrite !get_conversation_summary_loop by assumption. simpl.
  rewrite (summary_loop_humans_only _ _ self Hf).
  destruct (summary_loop_agree (messages self') self self' Hb Hm)
    as [H1 [H2 H3]].
  rewrite H1, H2, H3. auto.
Qed.

(** C8, as the code has it.  A summary request leaves the message list
    alone and folds the human texts currently in it, in order, into the
    digest the summary memory already holds: the answer is a function of
    that digest and of the human texts.  When the request succeeds its
    answer becomes the kept digest, so the next request folds the same
    texts into it once more; only from the empty digest of a new or
    cleared session is the answer the fold from nothing. *)
Theorem summary_folds_into_kept_digest (self : SecureMemoryManager) :
  messages self <> [] ->
  let humans := human_texts (messages self) in
  let first := get_conversation_summary self in
  messages (snd first) = messages self
  /\ fst first = digest_of (refold humans (summary_buffer self))
  /\ (summary_buffer self = "" ->
      fst first = digest_of (refold humans ""))
  /\ (forall d, refold humans (summary_buffer self) = Ok d ->
      fst first = d
      /\ summary_buffer (snd first) = d
      /\ fst (get_conversation_summary (snd first))
         = digest_of (refold humans d)).
Proof.
  intros Hne humans first.
  destruct (get_conversation_summary_messages self) as [Hm _].
  destruct (get_conversation_summary_refold self Hne) as [Hd Hb].
  fold humans in Hd, Hb. fold first in Hm, Hd, Hb.
  split; [exact Hm|]. split; [exact Hd|].
  split; [intros E; now rewrite <- E|].
  intros d Hr. rewrite Hd, Hr. split; [reflexivity|].
  split; [now apply Hb|].
  assert (Hne' : messages (snd first) <> []) by now rewrite Hm.
  destruct (get_conversation_summary_refold (snd first) Hne') as [Hd' _].
  rewrite Hd', Hm, (Hb d Hr). reflexivity.
Qed.

(* ================================================================== *)
(** ** Clearing *)

(* ================================================================== *)
(** ** One chat call *)

Lemma chat_invalid (self : SecureMemoryManager) (u : string) :
  _validate_input u = false -> chat self u = (validation_failed, self).
Proof. intros H. unfold chat. now rewrite H. Qed.

(** After validation the human append cannot fail: it repeats the
    length check the validator made. *)
Lemma human_added (self : SecureMemoryManager) (u : string) :
  _validate_input u = true ->
  fst (add_message u true self) = true
  /\ messages (snd (add_message u true self))
     = messages self ++ [HumanMessage (strip u)]
  /\ summary_buffer (snd (add_message u true self)) = summary_buffer self
  /\ summary_messages (snd (add_message u true self))
     = summary_messages self
  /\ conversation_metadata (snd (add_message u true self))
     = {| start_time := start_time (conversation_metadata self);
          message_count := message_count (conversation_metadata self) + 1;
          total_tokens := total_tokens (conversation_metadata self)
                          + length (split (strip u)) |}.
Proof.
  intros H. apply validate_input_length_ok in H.
  rewrite (add_message_accepted u true self H). simpl. auto.
Qed.

Lemma chat_raise (self : SecureMemoryManager) (u e : string) :
  _validate_input u = true ->
  predict (messages self ++ [HumanMessage (strip u)]) u = Raise e ->
  chat self u = (internal_error e, snd (add_message u true self)).
Proof.
  intros Hv Hp. unfold chat. rewrite Hv. cbn [negb].
  destruct (human_added self u Hv) as [Ha [Hm _]].
  destruct (add_message u true self) as [added self1]. simpl in *.
  subst added. cbn [negb]. rewrite Hm, Hp. reflexivity.
Qed.

Lemma chat_ok (self : SecureMemoryManager) (u reply : string)
    (saved : list BaseMessage) :
  _validate_input u = true ->
  predict (messages self ++ [HumanMessage (strip u)]) u = Ok (reply, saved) ->
  let self3 :=
    snd (add_message reply false
           (chain_saved saved (snd (add_message u true self)))) in
  chat self u
  = ({| response := reply;
        success := true;
        error := None;
        memory_stats := Some (get_memory_stats self3);
        conversation_summary := Some (fst (get_conversation_summary self3)) |},
     snd (get_conversation_summary self3)).
Proof.
  intros Hv Hp. unfold chat. rewrite Hv. cbn [negb].
  destruct (human_added self u Hv) as [Ha [Hm _]].
  destruct (add_message u true self) as [added self1]. simpl in *.
  subst added. cbn [negb]. rewrite Hm, Hp.
  destruct (add_message reply false (chain_saved saved self1)) as [b self3].
  simpl.
  destruct (get_conversation_summary self3) as [summary self4].
  reflexivity.
Qed.

(* ================================================================== *)
(** ** Sequences of chat calls *)

(** What one call does to the message list and to the counter. *)
Lemma chat_extends (self : SecureMemoryManager) (u : string) :
  exists appended,
    messages (snd (chat self u)) = messages self ++ appended
    /\ (success (fst (chat self u)) = true -> 1 <= length appended)
    /\ message_count (conversation_metadata (snd (chat self u)))
       <= message_count (conversation_metadata self) + length appended
    /\ message_count (conversation_metadata self)
       <= message_count (conversation_metadata (snd (chat self u))).
Proof.
  destruct (_validate_input u) eqn:Hv.
  - destruct (human_added self u Hv) as [_ [Hm1 [_ [_ Hc1]]]].
    destruct (predict (messages self ++ [HumanMessage (strip u)]) u)
      as [[reply saved]|e] eqn:Hp.
    + rewrite (chat_ok self u reply saved Hv Hp). simpl.
      match goal with
      | |- context [get_conversation_summary ?s] =>
          destruct (get_conversation_summary_messages s) as [Hm Hc]
      end.
      rewrite Hm, Hc.
      destruct (validate_input_length reply) eqn:Hr.
      * rewrite (add_message_accepted reply false _ Hr). simpl.
        rewrite Hm1, Hc1. simpl.
        exists ([HumanMessage (strip u)] ++ saved ++ [AIMessage (strip reply)]).
        rewrite <- !app_assoc. split; [reflexivity|].
        rewrite !length_app. simpl. lia.
      * rewrite (add_message_rejected reply false _ Hr). simpl.
        rewrite Hm1, Hc1. simpl.
        exists ([HumanMessage (strip u)] ++ saved).
        rewrite <- !app_assoc. split; [reflexivity|].
        rewrite !length_app. simpl. lia.
    + rewrite (chat_raise self u e Hv Hp). simpl.
      rewrite Hm1, Hc1. simpl.
      exists [HumanMessage (strip u)]. split; [reflexivity|].
      simpl. split; [discriminate|lia].
  - rewrite (chat_invalid self u Hv). simpl.
    exists []. rewrite app_nil_r. split; [reflexivity|].
    simpl. split; [discriminate|lia].
Qed.

Lemma chats_cons (self : SecureMemoryManager) (u : string)
    (rest : list string) :
  chats self (u :: rest)
  = (fst (chat self u) :: fst (chats (snd (chat self u)) rest),
     snd (chats (snd (chat self u)) rest)).
Proof.
  simpl. destruct (chat self u) as [r self1]. simpl.
  destruct (chats self1 rest) as [rs self2]. reflexivity.
Qed.

Lemma chats_results_length (inputs : list string) :
  forall self, length (fst (chats self inputs)) = length inputs.
Proof.
  induction inputs as [|u rest IH]; intros self; [reflexivity|].
  rewrite chats_cons. simpl. now rewrite IH.
Qed.

(** Nothing a sequence of calls does removes a message: the list only
    grows at its end, by at least one message per successful call, and
    by at least as much as [message_count]. *)
Lemma chats_extend (inputs : list string) :
  forall self,
  exists appended,
    messages (snd (chats self inputs)) = messages self ++ appended
    /\ (Forall (fun r => success r = true) (fst (chats self inputs)) ->
        length inputs <= length appended)
    /\ message_count (conversation_metadata (snd (chats self inputs)))
       <= message_count (conversation_metadata self) + length appended
    /\ message_count (conversation_metadata self)
       <= message_count (conversation_metadata (snd (chats self inputs))).
Proof.
  induction inputs as [|u rest IH]; intros self.
  - exists []. simpl. rewrite app_nil_r. repeat split; lia.
  - rewrite chats_cons. simpl.
    destruct (chat_extends self u) as [a1 [Hm1 [Hs1 [Hc1 Hd1]]]].
    destruct (IH (snd (chat self u))) as [a2 [Hm2 [Hs2 [Hc2 Hd2]]]].
    exists (a1 ++ a2). rewrite Hm2, Hm1, <- app_assoc.
    split; [reflexivity|]. rewrite length_app. split; [|lia].
    intros HF. inversion HF as [|r rs Hr Hrs]; subst.
    specialize (Hs1 Hr). specialize (Hs2 Hrs). lia.
Qed.

(** With a chain that only answers, a successful call stores exactly
    the human turn and the reply, in that order. *)
Lemma chat_stores_pair (self : SecureMemoryManager) (u : string) :
  chain_only_answers ->
  success (fst (chat self u)) = true ->
  messages (snd (chat self u))
  = messages self
    ++ [HumanMessage (strip u); AIMessage (strip (response (fst (chat self u))))]
  /\ message_count (conversation_metadata (snd (chat self u)))
     = message_count (conversation_metadata self) + 2.
Proof.
  intros Hchain.
  destruct (_validate_input u) eqn:Hv.
  - destruct (human_added self u Hv) as [_ [Hm1 [_ [_ Hc1]]]].
    destruct (predict (messages self ++ [HumanMessage (strip u)]) u)
      as [[reply saved]|e] eqn:Hp.
    + destruct (Hchain _ _ _ _ Hp) as [-> Hlen].
      apply validate_input_length_iff in Hlen.
      rewrite (chat_ok self u reply [] Hv Hp). simpl.
      match goal with
      | |- context [get_conversation_summary ?s] =>
          destruct (get_conversation_summary_messages s) as [Hm Hc]
      end.
      rewrite Hm, Hc, (add_message_accepted reply false _ Hlen). simpl.
      rewrite Hm1, Hc1, app_nil_r, <- app_assoc. simpl.
      intros _. split; [reflexivity|lia].
    + rewrite (chat_raise self u e Hv Hp). simpl. discriminate.
  - rewrite (chat_invalid self u Hv). simpl. discriminate.
Qed.

Lemma chats_store_pairs (inputs : list string) :
  chain_only_answers ->
  forall self,
    Forall (fun r => success r = true) (fst (chats self inputs)) ->
    map role_tag (messages (snd (chats self inputs)))
    = map role_tag (messages self)
      ++ concat (repeat ["human"; "ai"] (length inputs))
    /\ length (messages (snd (chats self inputs)))
       = length (messages self) + 2 * length inputs
    /\ message_count (conversation_metadata (snd (chats self inputs)))
       = message_count (conversation_metadata self) + 2 * length inputs.
Proof.
  intros Hchain.
  induction inputs as [|u rest IH]; intros self HF.
  - simpl. rewrite app_nil_r. repeat split; lia.
  - rewrite chats_cons in *. simpl in *.
    inversion HF as [|r rs Hr Hrs]; subst.
    destruct (chat_stores_pair self u Hchain Hr) as [Hm Hc].
    destruct (IH _ Hrs) as [H1 [H2 H3]].
    rewrite H1, H2, H3, Hm, Hc, map_app, length_app, <- app_assoc. simpl.
    repeat split; lia.
Qed.


(** The window handed to the chain: the last [2 * k] messages. *)
Lemma buffer_is_suffix (msgs : list BaseMessage) :
  length (buffer msgs) = Nat.min (length msgs) 20
  /\ msgs = firstn (length msgs - 20) msgs ++ buffer msgs.
Proof.
  unfold buffer. change (memory_k * 2) with 20.
  rewrite length_skipn, firstn_skipn. split; [lia|reflexivity].
Qed.


Lemma chats_store_turns (inputs : list string) :
  chain_only_answers ->
  forall self,
    Forall (fun r => success r = true) (fst (chats self inputs)) ->
    messages (snd (chats self inputs))
    = messages self
      ++ concat (map turn_pair (combine inputs (fst (chats self inputs)))).
Proof.
  intros Hchain.
  induction inputs as [|u rest IH]; intros self HF.
  - simpl. now rewrite app_nil_r.
  - rewrite chats_cons in *. simpl in *.
    inversion HF as [|r rs Hr Hrs]; subst.
    destruct (chat_stores_pair self u Hchain Hr) as [Hm _].
    rewrite (IH _ Hrs), Hm, <- app_assoc. reflexivity.
Qed.

(* ================================================================== *)
(** ** More on strings *)

Lemma string_app_assoc (a b c : string) :
  ((a ++ b) ++ c = a ++ (b ++ c))%string.
Proof. induction a as [|x a IH]; simpl; congruence. Qed.

Lemma string_app_nil_r (a : string) : (a ++ "")%string = a.
Proof. induction a as [|x a IH]; simpl; congruence. Qed.

Lemma string_app_length (a b : string) :
  String.length (a ++ b) = String.length a + String.length b.
Proof. induction a as [|x a IH]; simpl; congruence. Qed.

(** A pattern found in a part is found in the whole. *)
Lemma contains_app (p a s b : string) :
  contains p s = true -> contains p (a ++ s ++ b) = true.
Proof.
  rewrite !contains_spec. intros [x [y ->]].
  exists (a ++ x)%string, (y ++ b)%string.
  now rewrite !string_app_assoc.
Qed.

Lemma contains_trans (p q s : string) :
  contains p q = true -> contains q s = true -> contains p s = true.
Proof.
  intros Hpq Hqs. apply contains_spec in Hqs. destruct Hqs as [a [b ->]].
  now apply contains_app.
Qed.

Lemma lstrip_fixed (s : string) :
  (forall c t, s = String c t -> isspace c = false) -> lstrip s = s.
Proof.
  destruct s as [|c t]; [reflexivity|]. intros H. simpl.
  now rewrite (H c t eq_refl).
Qed.

Lemma rstrip_fixed (s : string) :
  (forall t c, s = (t ++ String c EmptyString)%string -> isspace c = false) ->
  rstrip s = s.
Proof.
  induction s as [|c t IH]; [reflexivity|]. intros H. simpl.
  rewrite IH.
  - destruct t as [|d t']; [|reflexivity].
    now rewrite (H EmptyString c eq_refl).
  - intros t' c' ->. apply (H (String c t') c'). reflexivity.
Qed.

(** Stripping twice is stripping once. *)
Lemma strip_idem (s : string) : strip (strip s) = strip s.
Proof.
  destruct (strip_spec s) as [_ [_ [_ [_ [_ [Hf Hl]]]]]].
  unfold strip at 1. rewrite (rstrip_fixed _ Hl). now apply lstrip_fixed.
Qed.

Lemma split_run_lstrip (s : string) :
  split_run EmptyString (lstrip s) = split_run EmptyString s.
Proof.
  induction s as [|c t IH]; [reflexivity|]. simpl.
  destruct (isspace c) eqn:Hc; [exact IH|].
  simpl. now rewrite Hc.
Qed.

Lemma split_run_rstrip (s : string) :
  forall w, split_run w (rstrip s) = split_run w s.
Proof.
  induction s as [|c t IH]; intros w; [reflexivity|].
  cbn [rstrip].
  destruct (rstrip t) as [|d t'] eqn:E.
  - destruct (isspace c) eqn:Hc.
    + cbn [split_run]. rewrite Hc, <- IH. now destruct w.
    + cbn [split_run]. rewrite Hc, <- IH. reflexivity.
  - cbn [split_run]. destruct (isspace c).
    + rewrite <- IH. reflexivity.
    + apply IH.
Qed.

(** The words of a text are the words of the stripped text. *)
Lemma split_strip (s : string) : split (strip s) = split s.
Proof.
  unfold split, strip. now rewrite split_run_lstrip, split_run_rstrip.
Qed.

Lemma substring_prefix (n : nat) (s : string) :
  String.length (substring 0 n s) = Nat.min n (String.length s)
  /\ exists rest, s = (substring 0 n s ++ rest)%string.
Proof.
  revert s. induction n as [|n IH]; intros s.
  - destruct s; simpl; (split; [reflexivity|]); eexists; reflexivity.
  - destruct s as [|c t]; simpl.
    + split; [reflexivity|]. now exists EmptyString.
    + destruct (IH t) as [Hl [rest Hr]]. split; [now rewrite Hl|].
      exists rest. now rewrite <- Hr.
Qed.

Lemma lower_length (s : string) : String.length (lower s) = String.length s.
Proof. induction s as [|c t IH]; simpl; congruence. Qed.

(* ================================================================== *)
(** ** Further properties of the validator and of the append *)

(** X1. With a non-negative limit, [_sanitize_message] returns at most
    [MAX_INPUT_LENGTH] characters, a prefix of the stripped message that
    does not begin with white space. *)
Theorem sanitize_message_bounds (message : string) :
  (0 <= MAX_INPUT_LENGTH)%Z ->
  (len (_sanitize_message message) <= MAX_INPUT_LENGTH)%Z
  /\ (exists rest,
        strip message = (_sanitize_message message ++ rest)%string)
  /\ (forall c t,
        _sanitize_message message = String c t -> isspace c = false).
Proof.
  intros Hmax.
  destruct (strip_spec message) as [_ [_ [_ [_ [_ [Hf _]]]]]].
  unfold _sanitize_message.
  destruct (Z.gtb_spec (len (strip message)) MAX_INPUT_LENGTH) as [Hgt|Hle].
  - unfold slice_to.
    destruct (Z.ltb_spec MAX_INPUT_LENGTH 0) as [Hneg|_]; [lia|].
    destruct (substring_prefix (Z.to_nat MAX_INPUT_LENGTH) (strip message))
      as [Hl [rest Hr]].
    split; [unfold len; rewrite Hl; lia|].
    split; [now exists rest|].
    intros c t Hs. rewrite Hs in Hr. simpl in Hr. now apply (Hf c _ Hr).
  - split; [lia|]. split; [|exact Hf].
    exists EmptyString. now rewrite string_app_nil_r.
Qed.

(** X2. For a message within the limit, sanitizing what was sanitized
    changes nothing. *)
Theorem sanitize_message_idempotent (message : string) :
  validate_input_length message = true ->
  _sanitize_message (_sanitize_message message) = _sanitize_message message.
Proof.
  intros H. rewrite (sanitize_within_limit _ H).
  assert (H' : validate_input_length (strip message) = true).
  { apply validate_input_length_iff. apply validate_input_length_iff in H.
    pose proof (strip_len message). lia. }
  rewrite (sanitize_within_limit _ H'). apply strip_idem.
Qed.

(** X3. The word count [add_message] adds for an accepted message is
    the word count of the message as it was passed: stripping changes
    no word. *)
Theorem add_message_counts_words_of_input (message : string)
    (is_human : bool) (self : SecureMemoryManager) :
  fst (add_message message is_human self) = true ->
  total_tokens (conversation_metadata (snd (add_message message is_human self)))
  = total_tokens (conversation_metadata self) + length (split message).
Proof.
  intros Hacc.
  destruct (validate_input_length message) eqn:Hlen.
  - rewrite (add_message_accepted _ is_human self Hlen). simpl.
    now rewrite split_strip.
  - rewrite (add_message_rejected _ is_human self Hlen) in Hacc.
    discriminate.
Qed.

(** X4. [add_message] does not look at the content: a message made of
    white space only, within the limit, is accepted and stored as a
    turn with empty content, counted as a message with no word. *)
Theorem add_message_stores_blank_turn (message : string) (is_human : bool)
    (self : SecureMemoryManager) :
  all_space message ->
  (len message <= MAX_INPUT_LENGTH)%Z ->
  fst (add_message message is_human self) = true
  /\ messages (snd (add_message message is_human self))
     = messages self
       ++ [if is_human then HumanMessage "" else AIMessage ""]
  /\ message_count
       (conversation_metadata (snd (add_message message is_human self)))
     = message_count (conversation_metadata self) + 1
  /\ total_tokens
       (conversation_metadata (snd (add_message message is_human self)))
     = total_tokens (conversation_metadata self).
Proof.
  intros Hs Hl. apply validate_input_length_iff in Hl.
  apply strip_empty_iff in Hs.
  rewrite (add_message_accepted _ is_human self Hl). simpl.
  rewrite Hs. simpl. rewrite Nat.add_0_r. auto.
Qed.

Lemma validate_input_strip (u : string) :
  _validate_input u = true -> _validate_input (strip u) = true.
Proof.
  intros Hv.
  destruct (_validate_input (strip u)) eqn:E; [reflexivity|exfalso].
  assert (Hn : _validate_input u <> false) by congruence.
  apply Hn. apply validate_input_spec.
  apply validate_input_spec in E.
  destruct E as [E|[E|[p [Hp [a [b E]]]]]].
  - left. pose proof (strip_len u). lia.
  - right. left. apply strip_empty_iff. rewrite <- strip_idem.
    now apply strip_empty_iff.
  - right. right. exists p. split; [exact Hp|].
    destruct (strip_spec u) as [x [y [Hu _]]].
    assert (Hl : lower u = (lower x ++ lower (strip u) ++ lower y)%string)
      by (rewrite <- !lower_app; now rewrite <- Hu).
    exists (lower x ++ a)%string, (b ++ lower y)%string.
    rewrite Hl, E. now rewrite !string_app_assoc.
Qed.

(** X5. The text stored for a valid input is itself a valid input. *)
Theorem validate_input_stable_under_strip (u : string) :
  _validate_input u = true -> _validate_input (strip u) = true.
Proof. exact (validate_input_strip u). Qed.

(** X6. Four of the eight patterns never decide: every text containing
    "javascript:", "vbscript:", "<script" or "</script>" contains
    "script", so the validator is the one with the patterns "script",
    "data:", "onload=" and "onerror=". *)
Theorem validate_input_four_patterns (u : string) :
  _validate_input u
  = validate_input_length u
    && negb (String.eqb (strip u) "")
    && negb (existsb (fun pattern => contains pattern (lower u))
               ["script"; "data:"; "onload="; "onerror="]).
Proof.
  unfold _validate_input.
  destruct (validate_input_length u); [|reflexivity].
  destruct (String.eqb (strip u) ""); [reflexivity|].
  cbn [negb andb]. f_equal.
  unfold dangerous_patterns. cbn [existsb].
  set (s := lower u).
  assert (H : forall q, contains "script" q = true ->
                        contains q s = true -> contains "script" s = true)
    by (intros q; apply contains_trans).
  pose proof (H "javascript:" eq_refl) as H1.
  pose proof (H "vbscript:" eq_refl) as H2.
  pose proof (H "<script" eq_refl) as H3.
  pose proof (H "</script>" eq_refl) as H4.
  destruct (contains "script" s); [reflexivity|].
  destruct (contains "javascript:" s); [now discriminate H1|].
  destruct (contains "vbscript:" s); [now discriminate H2|].
  destruct (contains "<script" s); [now discriminate H3|].
  destruct (contains "</script>" s); [now discriminate H4|].
  destruct (contains "data:" s); reflexivity.
Qed.

(** X7. With a limit of zero or less no input is valid: every call of
    [chat] ends in the validation failure and changes nothing. *)
Theorem chat_locked_by_non_positive_limit (self : SecureMemoryManager)
    (u : string) :
  (MAX_INPUT_LENGTH <= 0)%Z ->
  chat self u = (validation_failed, self).
Proof.
  intros Hmax. apply chat_invalid. apply validate_input_spec.
  destruct u as [|c t].
  - right. left. intros c [].
  - left. unfold len. simpl String.length. lia.
Qed.

(* ================================================================== *)
(** ** Further properties of chat *)

(** Whatever holds of a manager and is kept by the two appends, by what
    the chain saves and by a summary request is kept by [chat]. *)
Lemma chat_preserves (P : SecureMemoryManager -> Prop) :
  (forall s u, _validate_input u = true -> P s ->
               P (snd (add_message u true s))) ->
  (forall s reply, P s -> P (snd (add_message reply false s))) ->
  (forall s history u reply saved,
     predict history u = Ok (reply, saved) -> P s ->
     P (chain_saved saved s)) ->
  (forall s, P s -> P (snd (get_conversation_summary s))) ->
  forall self u, P self -> P (snd (chat self u)).
Proof.
  intros Hh Ha Hs Hg self u HP.
  destruct (_validate_input u) eqn:Hv.
  - destruct (predict (messages self ++ [HumanMessage (strip u)]) u)
      as [[reply saved]|e] eqn:Hp.
    + rewrite (chat_ok self u reply saved Hv Hp). simpl.
      apply Hg, Ha, (Hs _ _ _ _ _ Hp), Hh; assumption.
    + rewrite (chat_raise self u e Hv Hp). simpl. now apply Hh.
  - now rewrite (chat_invalid self u Hv).
Qed.

Lemma chats_preserve (P : SecureMemoryManager -> Prop) :
  (forall self u, P self -> P (snd (chat self u))) ->
  forall inputs self, P self -> P (snd (chats self inputs)).
Proof.
  intros Hc. induction inputs as [|u rest IH]; intros self HP; [exact HP|].
  rewrite chats_cons. simpl. apply IH, Hc, HP.
Qed.

Lemma add_message_metadata (message : string) (is_human : bool)
    (self : SecureMemoryManager) :
  let self' := snd (add_message message is_human self) in
  start_time (conversation_metadata self')
  = start_time (conversation_metadata self)
  /\ message_count (conversation_metadata self)
     <= message_count (conversation_metadata self')
  /\ total_tokens (conversation_metadata self)
     <= total_tokens (conversation_metadata self')
  /\ summary_buffer self' = summary_buffer self
  /\ summary_messages self' = summary_messages self.
Proof.
  destruct (validate_input_length message) eqn:Hl.
  - rewrite (add_message_accepted _ is_human self Hl). simpl.
    repeat split; lia.
  - rewrite (add_message_rejected _ is_human self Hl). simpl.
    repeat split; lia.
Qed.

(** X8. When the chain raises on a valid input the call fails, but the
    human turn it had stored stays, counted in [message_count] and
    [total_tokens]; the summary memory is not touched. *)
Theorem chat_keeps_human_turn_on_chain_error (self : SecureMemoryManager)
    (u e : string) :
  _validate_input u = true ->
  predict (messages self ++ [HumanMessage (strip u)]) u = Raise e ->
  let self' := snd (chat self u) in
  success (fst (chat self u)) = false
  /\ messages self' = messages self ++ [HumanMessage (strip u)]
  /\ message_count (conversation_metadata self')
     = message_count (conversation_metadata self) + 1
  /\ total_tokens (conversation_metadata self')
     = total_tokens (conversation_metadata self) + length (split u)
  /\ summary_buffer self' = summary_buffer self
  /\ summary_messages self' = summary_messages self.
Proof.
  intros Hv Hp. rewrite (chat_raise self u e Hv Hp). simpl.
  destruct (human_added self u Hv) as [_ [Hm [Hb [Hs Hc]]]].
  rewrite Hm, Hb, Hs, Hc. simpl. rewrite split_strip. repeat split.
Qed.

(** X9. [chat] never answers "Failed to add message to memory": the
    append of the human turn repeats a check the validator has made. *)
Theorem chat_never_reports_memory_write_failure
    (self : SecureMemoryManager) (u : string) :
  fst (chat self u) <> memory_write_failed.
Proof.
  destruct (_validate_input u) eqn:Hv.
  - destruct (predict (messages self ++ [HumanMessage (strip u)]) u)
      as [[reply saved]|e] eqn:Hp.
    + rewrite (chat_ok self u reply saved Hv Hp). simpl. discriminate.
    + rewrite (chat_raise self u e Hv Hp). simpl. discriminate.
  - rewrite (chat_invalid self u Hv). simpl. discriminate.
Qed.

(** The summary loop only adds to the summary memory's list, and adds
    at least one exchange as soon as there is a human message. *)
Lemma summary_loop_grows (msgs : list BaseMessage) :
  forall self,
    length (summary_messages self)
    <= length (summary_messages (snd (summary_loop msgs self)))
    /\ (existsb is_human_message msgs = true ->
        length (summary_messages self) + 2
        <= length (summary_messages (snd (summary_loop msgs self))))
    /\ (existsb is_human_message msgs = false ->
        snd (summary_loop msgs self) = self).
Proof.
  induction msgs as [|m rest IH]; intros self; simpl.
  - repeat split; [lia|discriminate].
  - destruct (is_human_message m); simpl.
    + destruct (save_context_messages (content m) "" self) as [_ [_ Hs]].
      destruct (save_context (content m) "" self) as [[[]|e] self1];
        simpl in *.
      * destruct (IH self1) as [H1 _]. rewrite Hs, length_app in H1.
        simpl in H1. repeat split; [lia|intros _; lia|discriminate].
      * rewrite Hs, length_app. simpl.
        repeat split; [lia|intros _; lia|discriminate].
    + apply IH.
Qed.

Lemma has_summary_after_summary (self : SecureMemoryManager) :
  has_summary (get_memory_stats (snd (get_conversation_summary self)))
  = has_summary (get_memory_stats self)
    || existsb is_human_message (messages self).
Proof.
  assert (E : messages self = [] \/ messages self <> [])
    by (destruct (messages self); [left|right]; congruence).
  destruct E as [E|E].
  - rewrite get_conversation_summary_empty by exact E.
    rewrite E. simpl. now rewrite orb_false_r.
  - rewrite get_conversation_summary_loop by exact E. simpl.
    destruct (summary_loop_grows (messages self) self) as [H1 [H2 H3]].
    destruct (existsb is_human_message (messages self)).
    + specialize (H2 eq_refl). rewrite orb_true_r.
      apply Nat.ltb_lt. lia.
    + rewrite (H3 eq_refl). now rewrite orb_false_r.
Qed.

(** X10. A summary request marks the session as summarised exactly when
    there is a human message to fold, also when the summarizer raises:
    afterwards [has_summary] is its old value or the presence of a
    human message. *)
Theorem has_summary_after_request (self : SecureMemoryManager) :
  has_summary (get_memory_stats (snd (get_conversation_summary self)))
  = has_summary (get_memory_stats self)
    || existsb is_human_message (messages self).
Proof. exact (has_summary_after_summary self). Qed.

(** X11. The statistics a successful call returns count the messages of
    the state it leaves and carry its metadata, but are read before the
    summary is made: their [has_summary] is the value from before the
    call, while the state left is always marked as summarised. *)
Theorem chat_returns_statistics_read_before_summary
    (self : SecureMemoryManager) (u : string) :
  success (fst (chat self u)) = true ->
  exists stats summary,
    memory_stats (fst (chat self u)) = Some stats
    /\ conversation_summary (fst (chat self u)) = Some summary
    /\ total_messages stats = length (messages (snd (chat self u)))
    /\ stats_metadata stats = conversation_metadata (snd (chat self u))
    /\ has_summary stats = has_summary (get_memory_stats self)
    /\ has_summary (get_memory_stats (snd (chat self u))) = true.
Proof.
  destruct (_validate_input u) eqn:Hv.
  - destruct (predict (messages self ++ [HumanMessage (strip u)]) u)
      as [[reply saved]|e] eqn:Hp.
    + rewrite (chat_ok self u reply saved Hv Hp). intros _.
      cbn [fst snd memory_stats conversation_summary].
      set (self3 := snd (add_message reply false
                           (chain_saved saved (snd (add_message u true self))))).
      destruct (get_conversation_summary_messages self3) as [Hm Hc].
      exists (get_memory_stats self3), (fst (get_conversation_summary self3)).
      split; [reflexivity|]. split; [reflexivity|].
      split; [simpl; now rewrite Hm|]. split; [simpl; now rewrite Hc|].
      destruct (human_added self u Hv) as [_ [Hm1 [_ [Hs1 _]]]].
      assert (Hs3 : summary_messages self3 = summary_messages self).
      { subst self3.
        destruct (add_message_metadata reply false
                    (chain_saved saved (snd (add_message u true self))))
          as (_ & _ & _ & _ & ->). simpl. exact Hs1. }
      split; [simpl; now rewrite Hs3|].
      rewrite has_summary_after_summary.
      assert (Hex : existsb is_human_message (messages self3) = true).
      { apply existsb_exists. exists (HumanMessage (strip u)).
        split; [|reflexivity]. subst self3.
        destruct (validate_input_length reply) eqn:Hr.
        - rewrite (add_message_accepted reply false _ Hr). simpl.
          rewrite Hm1, !in_app_iff. simpl. auto.
        - rewrite (add_message_rejected reply false _ Hr). simpl.
          rewrite Hm1, !in_app_iff. simpl. auto. }
      rewrite Hex. apply orb_true_r.
    + rewrite (chat_raise self u e Hv Hp). simpl. discriminate.
  - rewrite (chat_invalid self u Hv). simpl. discriminate.
Qed.

(** X12. No sequence of calls changes [start_time], and none lowers
    [message_count] or [total_tokens]. *)
Theorem chats_keep_start_time_and_counters (self : SecureMemoryManager)
    (inputs : list string) :
  let self' := snd (chats self inputs) in
  start_time (conversation_metadata self')
  = start_time (conversation_metadata self)
  /\ message_count (conversation_metadata self)
     <= message_count (conversation_metadata self')
  /\ total_tokens (conversation_metadata self)
     <= total_tokens (conversation_metadata self').
Proof.
  set (P := fun s : SecureMemoryManager =>
              start_time (conversation_metadata s)
              = start_time (conversation_metadata self)
              /\ message_count (conversation_metadata self)
                 <= message_count (conversation_metadata s)
              /\ total_tokens (conversation_metadata self)
                 <= total_tokens (conversation_metadata s)).
  assert (Hadd : forall s m h, P s -> P (snd (add_message m h s))).
  { intros s m h (H1 & H2 & H3).
    destruct (add_message_metadata m h s) as (A1 & A2 & A3 & _).
    unfold P. rewrite A1. repeat split; [exact H1|lia|lia]. }
  apply (chats_preserve P); [|unfold P; repeat split; lia].
  apply chat_preserves.
  - intros s u _. apply Hadd.
  - intros s r. apply Hadd.
  - intros s h u r saved _ HP. exact HP.
  - intros s HP. unfold P.
    destruct (get_conversation_summary_messages s) as [_ ->]. exact HP.
Qed.

(* ================================================================== *)
(** ** What the stored list and the metadata keep *)

Lemma list_sum_snoc (l : list nat) (x : nat) :
  list_sum (l ++ [x]) = list_sum l + x.
Proof. rewrite list_sum_app. simpl. lia. Qed.

(** X13. While the chain appends nothing itself, the metadata describe
    the stored list after any sequence of calls on a new session,
    failed ones included: [message_count] is the number of stored
    messages and [total_tokens] the sum of their word counts. *)
Theorem metadata_describe_stored_list (now : Timestamp)
    (inputs : list string) :
  chain_saves_nothing ->
  let self' := snd (chats (init now) inputs) in
  message_count (conversation_metadata self') = length (messages self')
  /\ total_tokens (conversation_metadata self')
     = list_sum (map word_count (messages self')).
Proof.
  intros Hchain.
  set (P := fun s : SecureMemoryManager =>
              message_count (conversation_metadata s) = length (messages s)
              /\ total_tokens (conversation_metadata s)
                 = list_sum (map word_count (messages s))).
  assert (Hadd : forall s m h, P s -> P (snd (add_message m h s))).
  { intros s m h [H1 H2].
    destruct (validate_input_length m) eqn:Hl.
    - rewrite (add_message_accepted _ h s Hl). unfold P. simpl.
      rewrite length_app, map_app, list_sum_app, H1, H2.
      split; [reflexivity|].
      destruct h; unfold word_count; simpl; lia.
    - rewrite (add_message_rejected _ h s Hl). now split. }
  apply (chats_preserve P); [|now split].
  apply chat_preserves.
  - intros s u _. apply Hadd.
  - intros s r. apply Hadd.
  - intros s h u r saved Hp HP. rewrite (Hchain _ _ _ _ Hp).
    unfold P, chain_saved. simpl. now rewrite app_nil_r.
  - intros s HP. unfold P.
    destruct (get_conversation_summary_messages s) as [-> ->]. exact HP.
Qed.

(** X14. While the chain appends nothing itself, every message stored
    by calls on a new session is within the length limit and has no
    white space at either end, and every stored human turn is a valid
    input. *)
Theorem stored_messages_are_sanitized (now : Timestamp)
    (inputs : list string) :
  chain_saves_nothing ->
  Forall
    (fun m =>
       (len (content m) <= MAX_INPUT_LENGTH)%Z
       /\ strip (content m) = content m
       /\ (is_human_message m = true -> _validate_input (content m) = true))
    (messages (snd (chats (init now) inputs))).
Proof.
  intros Hchain.
  set (Q := fun m =>
              (len (content m) <= MAX_INPUT_LENGTH)%Z
              /\ strip (content m) = content m
              /\ (is_human_message m = true ->
                  _validate_input (content m) = true)).
  set (P := fun s : SecureMemoryManager => Forall Q (messages s)).
  apply (chats_preserve P); [|constructor].
  apply chat_preserves.
  - intros s u Hv HP.
    pose proof (validate_input_length_ok u Hv) as Hl.
    rewrite (add_message_accepted _ true s Hl). unfold P. simpl.
    apply Forall_app. split; [exact HP|]. constructor; [|constructor].
    unfold Q. simpl. apply validate_input_length_iff in Hl.
    pose proof (strip_len u).
    split; [lia|]. split; [apply strip_idem|].
    intros _. now apply validate_input_strip.
  - intros s r HP.
    destruct (validate_input_length r) eqn:Hl.
    + rewrite (add_message_accepted _ false s Hl). unfold P. simpl.
      apply Forall_app. split; [exact HP|]. constructor; [|constructor].
      unfold Q. simpl. apply validate_input_length_iff in Hl.
      pose proof (strip_len r).
      split; [lia|]. split; [apply strip_idem|discriminate].
    + now rewrite (add_message_rejected _ false s Hl).
  - intros s h u r saved Hp HP. rewrite (Hchain _ _ _ _ Hp).
    unfold P, chain_saved. simpl. now rewrite app_nil_r.
  - intros s HP. unfold P.
    destruct (get_conversation_summary_messages s) as [-> _]. exact HP.
Qed.

(** X15. When the summarizer does not raise, a summary request adds to
    the summary memory's own list one exchange per human message of
    the stored list, in order: the human text and an empty reply. *)
Theorem summary_request_records_exchanges (self : SecureMemoryManager)
    (d : string) :
  refold (human_texts (messages self)) (summary_buffer self) = Ok d ->
  summary_messages (snd (get_conversation_summary self))
  = summary_messages self
    ++ flat_map (fun text => [HumanMessage text; AIMessage ""])
         (human_texts (messages self)).
Proof.
  assert (L : forall msgs s d',
             refold (human_texts msgs) (summary_buffer s) = Ok d' ->
             summary_messages (snd (summary_loop msgs s))
             = summary_messages s
               ++ flat_map (fun text => [HumanMessage text; AIMessage ""])
                    (human_texts msgs)).
  { unfold human_texts.
    induction msgs as [|m rest IH]; intros s d' Hr; simpl.
    - now rewrite app_nil_r.
    - simpl in Hr. revert Hr.
      destruct (is_human_message m); simpl; intros Hr;
        [|now apply (IH s d')].
      pose proof (save_context_buffer (content m) s) as Hb.
      destruct (save_context_messages (content m) "" s) as [_ [_ Hs]].
      destruct (summarize (summary_buffer s) _) as [d1|e]; [|discriminate].
      destruct Hb as [Hok Hbuf].
      destruct (save_context (content m) "" s) as [[[]|e] s1];
        simpl in *; [|discriminate].
      subst d1. rewrite (IH s1 d' Hr), Hs, <- app_assoc. reflexivity. }
  intros Hr.
  assert (E : messages self = [] \/ messages self <> [])
    by (destruct (messages self); [left|right]; congruence).
  destruct E as [E|E].
  - rewrite get_conversation_summary_empty by exact E.
    rewrite E. simpl. now rewrite app_nil_r.
  - rewrite get_conversation_summary_loop by exact E. simpl.
    now apply (L _ _ d).
Qed.

(* ================================================================== *)
(** ** The conversation history, the memory information, the export *)

Lemma flat_map_map {A B C : Type} (f : B -> list C) (g : A -> B)
    (l : list A) :
  flat_map f (map g l) = flat_map (fun x => f (g x)) l.
Proof. induction l as [|x l IH]; simpl; congruence. Qed.

Lemma history_is_exchanges (msgs : list BaseMessage) :
  flat_map
    (fun i =>
       if (i + 1 <? length msgs)%nat
       then [ {| human := content (nth i msgs (HumanMessage ""));
                 ai := content (nth (i + 1) msgs (HumanMessage "")) |} ]
       else [])
    (range_step2 (length msgs))
  = exchanges msgs.
Proof.
  assert (H : forall n msgs, length msgs < n ->
            flat_map
              (fun i =>
                 if (i + 1 <? length msgs)%nat
                 then [ {| human := content (nth i msgs (HumanMessage ""));
                           ai := content (nth (i + 1) msgs (HumanMessage "")) |} ]
                 else [])
              (range_step2 (length msgs))
            = exchanges msgs).
  { induction n as [|n IH]; intros l Hl; [lia|].
    destruct l as [|a [|b rest]]; [reflexivity|reflexivity|].
    specialize (IH rest). cbn [exchanges].
    rewrite <- IH by (simpl in Hl; lia).
    set (F := fun i =>
           if (i + 1 <? length (a :: b :: rest))%nat
           then [ {| human := content (nth i (a :: b :: rest) (HumanMessage ""));
                     ai := content (nth (i + 1) (a :: b :: rest)
                                      (HumanMessage "")) |} ]
           else []).
    set (G := fun i =>
           if (i + 1 <? length rest)%nat
           then [ {| human := content (nth i rest (HumanMessage ""));
                     ai := content (nth (i + 1) rest (HumanMessage "")) |} ]
           else []).
    assert (HF0 : F (2 * 0) = [ {| human := content a; ai := content b |} ])
      by reflexivity.
    assert (HFS : forall j, F (2 * S j) = G (2 * j)).
    { intros j. replace (2 * S j) with (S (S (2 * j))) by lia. reflexivity. }
    unfold range_step2.
    change (length (a :: b :: rest)) with (S (S (length rest))).
    replace (S (S (length rest)) + 1) with (S (S (length rest + 1))) by lia.
    change (Nat.div2 (S (S (length rest + 1))))
      with (S (Nat.div2 (length rest + 1))).
    rewrite <- cons_seq, <- seq_shift, !flat_map_map.
    change (flat_map (fun x => F (2 * x)) (0 :: map S (seq 0 (Nat.div2 (length rest + 1)))))
      with (F (2 * 0) ++ flat_map (fun x => F (2 * x))
                           (map S (seq 0 (Nat.div2 (length rest + 1))))).
    rewrite HF0, flat_map_map.
    rewrite (flat_map_ext _ _ HFS). reflexivity. }
  apply (H (S (length msgs))). lia.
Qed.

Lemma exchanges_length (msgs : list BaseMessage) :
  length (exchanges msgs) = Nat.div2 (length msgs)
  /\ flat_map (fun e => [human e; ai e]) (exchanges msgs)
     = map content (firstn (2 * Nat.div2 (length msgs)) msgs).
Proof.
  assert (H : forall n msgs, length msgs < n ->
            length (exchanges msgs) = Nat.div2 (length msgs)
            /\ flat_map (fun e => [human e; ai e]) (exchanges msgs)
               = map content (firstn (2 * Nat.div2 (length msgs)) msgs)).
  { induction n as [|n IH]; intros l Hl; [lia|].
    destruct l as [|a [|b rest]]; [now split|now split|].
    destruct (IH rest) as [H1 H2]; [simpl in Hl; lia|].
    change (length (a :: b :: rest)) with (S (S (length rest))).
    change (Nat.div2 (S (S (length rest)))) with (S (Nat.div2 (length rest))).
    replace (2 * S (Nat.div2 (length rest)))
      with (S (S (2 * Nat.div2 (length rest)))) by lia.
    cbn [exchanges length flat_map firstn map app human ai].
    rewrite H1, H2. now split. }
  apply (H (S (length msgs))). lia.
Qed.

(** X16. The history pairs the stored messages by position, two by two
    from the start, whatever their kinds: it has half as many entries
    as there are messages, rounded down, and read in order its entries
    give the contents of the stored messages up to the last complete
    pair; a last single message is left out. *)
Theorem history_pairs_by_position (self : SecureMemoryManager) :
  get_conversation_history self = exchanges (messages self)
  /\ length (get_conversation_history self)
     = Nat.div2 (length (messages self))
  /\ flat_map (fun e => [human e; ai e]) (get_conversation_history self)
     = map content
         (firstn (2 * Nat.div2 (length (messages self))) (messages self)).
Proof.
  unfold get_conversation_history. rewrite history_is_exchanges.
  split; [reflexivity|apply exchanges_length].
Qed.


(** X19. [get_memory_info] reports the same number of messages twice,
    the length of the stored list, and leaves that list and the
    metadata as they were; the summary it returns is a summary request
    like any other, whose effect on the summary memory stays. *)
Theorem memory_info_is_consistent (self : SecureMemoryManager) :
  let info := fst (get_memory_info self) in
  let self' := snd (get_memory_info self) in
  info_total_messages info = total_messages (info_memory_stats info)
  /\ info_total_messages info = length (messages self)
  /\ messages self' = messages self
  /\ conversation_metadata self' = conversation_metadata self
  /\ info_conversation_summary info = fst (get_conversation_summary self)
  /\ self' = snd (get_conversation_summary self)
  /\ has_summary (get_memory_stats self')
     = has_summary (info_memory_stats info)
       || existsb is_human_message (messages self).
Proof.
  unfold get_memory_info.
  pose proof (has_summary_after_summary self) as Hh.
  destruct (get_conversation_summary_messages self) as [Hm Hc].
  destruct (get_conversation_summary self) as [summary self1].
  simpl in *. rewrite Hm. repeat split; assumption.
Qed.

Lemma export_entries_injective (clock clock' : nat -> Timestamp)
    (msgs : list BaseMessage) :
  forall msgs' i j,
    map (fun e => (entry_type e, entry_content e))
      (export_entries clock i msgs)
    = map (fun e => (entry_type e, entry_content e))
        (export_entries clock' j msgs') ->
    msgs = msgs'.
Proof.
  induction msgs as [|m rest IH]; intros [|m' rest'] i j; simpl;
    try discriminate; [reflexivity|].
  intros [= Ht Hc Hr]. f_equal; [|now apply (IH rest' (S i) (S j))].
  destruct m, m'; simpl in *; try discriminate; congruence.
Qed.

(** X20. The export loses nothing of the stored list: two exports whose
    entries agree on type and content, whenever they were made, come
    from the same list of messages. *)
Theorem export_determines_messages (clock clock' : nat -> Timestamp)
    (self self' : SecureMemoryManager) :
  map (fun e => (entry_type e, entry_content e))
    (exported_messages (fst (export_memory clock self)))
  = map (fun e => (entry_type e, entry_content e))
      (exported_messages (fst (export_memory clock' self'))) ->
  messages self = messages self'.
Proof.
  unfold export_memory.
  destruct (get_conversation_summary self) as [s1 m1].
  destruct (get_conversation_summary self') as [s2 m2]. simpl.
  apply export_entries_injective.
Qed.

Lemma skipn_S_tail {A : Type} (n : nat) (l : list A) :
  skipn (S n) l = tl (skipn n l).
Proof.
  revert l. induction n as [|n IH]; intros [|x l]; try reflexivity.
  simpl. now rewrite <- IH.
Qed.

(** X21. The window read by [get_memory_variables] slides: after an
    accepted append it is the old window followed by the new turn,
    without its oldest message when twenty were already stored. *)
Theorem window_slides_on_append (message : string) (is_human : bool)
    (self : SecureMemoryManager) :
  fst (add_message message is_human self) = true ->
  let self' := snd (add_message message is_human self) in
  let turn :=
    if is_human then HumanMessage (strip message)
    else AIMessage (strip message) in
  get_memory_variables self'
  = (if (length (messages self) <? 20)%nat
     then get_memory_variables self
     else tl (get_memory_variables self)) ++ [turn]
  /\ length (get_memory_variables self') <= 20.
Proof.
  intros Hacc.
  destruct (validate_input_length message) eqn:Hlen.
  - rewrite (add_message_accepted _ is_human self Hlen). simpl.
    unfold get_memory_variables, buffer. simpl messages.
    change (memory_k * 2) with 20.
    rewrite length_app. simpl length.
    destruct (Nat.ltb_spec (length (messages self)) 20) as [Hlt|Hge].
    + replace (length (messages self) + 1 - 20) with 0 by lia.
      replace (length (messages self) - 20) with 0 by lia.
      simpl. split; [reflexivity|]. rewrite length_app. simpl. lia.
    + replace (length (messages self) + 1 - 20)
        with (S (length (messages self) - 20)) by lia.
      rewrite skipn_app.
      replace (S (length (messages self) - 20) - length (messages self))
        with 0 by lia.
      rewrite skipn_S_tail. simpl skipn at 2.
      split; [reflexivity|].
      rewrite length_app, <- skipn_S_tail, length_skipn. simpl. lia.
  - rewrite (add_message_rejected _ is_human self Hlen) in Hacc.
    discriminate.
Qed.

(* ================================================================== *)
(** ** File names and the command line *)

Lemma split_on_run_nonempty (sep : ascii) (s : string) :
  forall w, split_on_run sep w s <> [].
Proof.
  induction s as [|c t IH]; intros w; simpl; [discriminate|].
  destruct (Ascii.eqb c sep); [discriminate|apply IH].
Qed.

Lemma last_cons_nonempty {A : Type} (x d : A) (l : list A) :
  l <> [] -> last (x :: l) d = last l d.
Proof. destruct l; [congruence|reflexivity]. Qed.

Lemma split_on_run_no_sep (sep : ascii) (s : string) :
  ~ In sep (list_ascii_of_string s) ->
  forall w, split_on_run sep w s = [(w ++ s)%string].
Proof.
  induction s as [|c t IH]; intros Hn w; simpl.
  - now rewrite string_app_nil_r.
  - destruct (Ascii.eqb_spec c sep) as [->|Hc].
    + exfalso. apply Hn. now left.
    + rewrite IH by (intros Hi; apply Hn; now right).
      now rewrite string_app_assoc.
Qed.

Lemma last_split_on_run_app (sep : ascii) (a b d : string) :
  forall w,
    last (split_on_run sep w (a ++ String sep b)) d
    = last (split_on_run sep EmptyString b) d.
Proof.
  induction a as [|c a IH]; intros w; simpl.
  - rewrite Ascii.eqb_refl.
    apply last_cons_nonempty, split_on_run_nonempty.
  - destruct (Ascii.eqb c sep); [|apply IH].
    rewrite last_cons_nonempty by apply split_on_run_nonempty. apply IH.
Qed.

(** X22. Only the text after the last dot of a file name is looked at,
    in lower case; a name without any dot is taken whole, so a file
    called like an allowed type passes as one of that type would. *)
Theorem validate_file_type_reads_last_extension (stem ext : string) :
  ~ In "."%char (list_ascii_of_string ext) ->
  validate_file_type (stem ++ "." ++ ext)
  = existsb (String.eqb (lower ext)) ALLOWED_FILE_TYPES
  /\ validate_file_type ext
     = existsb (String.eqb (lower ext)) ALLOWED_FILE_TYPES.
Proof.
  intros Hn. unfold validate_file_type, split_on.
  change (stem ++ "." ++ ext)%string
    with (stem ++ String "."%char ext)%string.
  rewrite last_split_on_run_app.
  rewrite (split_on_run_no_sep _ _ Hn). simpl. auto.
Qed.

Lemma lower_char_dot (c : ascii) :
  Ascii.eqb (lower_char c) "."%char = Ascii.eqb c "."%char.
Proof. destruct c as [[] [] [] [] [] [] [] []]; reflexivity. Qed.

Lemma lower_char_idem (c : ascii) : lower_char (lower_char c) = lower_char c.
Proof. destruct c as [[] [] [] [] [] [] [] []]; reflexivity. Qed.

Lemma lower_idem (s : string) : lower (lower s) = lower s.
Proof.
  induction s as [|c t IH]; simpl; [reflexivity|].
  now rewrite lower_char_idem, IH.
Qed.

Lemma split_on_run_lower (s : string) :
  forall w,
    split_on_run "."%char (lower w) (lower s)
    = map lower (split_on_run "."%char w s).
Proof.
  induction s as [|c t IH]; intros w; simpl; [reflexivity|].
  rewrite lower_char_dot.
  destruct (Ascii.eqb c "."%char); simpl.
  - f_equal. apply (IH EmptyString).
  - rewrite <- IH, lower_app. reflexivity.
Qed.

Lemma last_map_lower (l : list string) :
  last (map lower l) "" = lower (last l "").
Proof.
  induction l as [|x l IH]; [reflexivity|].
  destruct l as [|y l]; [reflexivity|]. exact IH.
Qed.

(** X23. For a file name made of code points below 256, the strings
    of this development, the letter case of the name does not matter to
    [validate_file_type]. *)
Theorem validate_file_type_ignores_case (filename : string) :
  validate_file_type (lower filename) = validate_file_type filename.
Proof.
  unfold validate_file_type, split_on.
  change EmptyString with (lower EmptyString) at 1.
  now rewrite split_on_run_lower, last_map_lower, lower_idem.
Qed.

(** X24. What the chat loop of the command line passes on.  A line
    goes to [chat] only stripped, not empty, within the limit and not
    starting with a slash, so there [chat] can refuse it for a
    denylisted pattern only; a line refused as too long by the loop
    would have been refused by [chat]; a line skipped as empty is all
    white space. *)
Theorem cli_branch_spec (line : string) :
  match interactive_chat_branch line with
  | Chat u =>
      u = strip line
      /\ strip u = u
      /\ u <> ""
      /\ (len u <= MAX_INPUT_LENGTH)%Z
      /\ startswith u "/" = false
      /\ (_validate_input u = false <->
          exists p, In p dangerous_patterns
                    /\ contains p (lower u) = true)
  | MessageTooLong =>
      (len (strip line) > MAX_INPUT_LENGTH)%Z
      /\ _validate_input (strip line) = false
  | EmptyInput => all_space line
  | SpecialCommand command =>
      command = strip line /\ exists rest, command = String "/"%char rest
  end.
Proof.
  unfold interactive_chat_branch, startswith.
  destruct (prefix "/" (strip line)) eqn:Hp.
  - split; [reflexivity|].
    apply prefix_spec in Hp. destruct Hp as [b Hb].
    exists b. exact Hb.
  - destruct (String.eqb_spec (strip line) "") as [He|He].
    + now apply strip_empty_iff.
    + destruct (Z.gtb_spec (len (strip line)) MAX_INPUT_LENGTH) as [Hg|Hle].
      * split; [lia|]. apply validate_input_spec. left. lia.
      * split; [reflexivity|]. split; [apply strip_idem|].
        split; [exact He|]. split; [exact Hle|]. split; [exact Hp|].
        rewrite validate_input_spec. split.
        -- intros [H|[H|[p [Hin [a [b Hab]]]]]].
           ++ lia.
           ++ apply strip_empty_iff in H. rewrite strip_idem in H.
              contradiction.
           ++ exists p. split; [exact Hin|].
              apply contains_spec. now exists a, b.
        -- intros [p [Hin Hc]]. right. right. exists p.
           split; [exact Hin|]. now apply contains_spec.
Qed.

(* ================================================================== *)
(** ** The chain that saves each exchange itself *)

(** What a successful call leaves, whatever the chain saved: the human
    turn, what the chain appended, and the reply when it is within the
    limit. *)
Lemma chat_success_shape (self : SecureMemoryManager) (u : string) :
  success (fst (chat self u)) = true ->
  exists reply saved,
    predict (messages self ++ [HumanMessage (strip u)]) u = Ok (reply, saved)
    /\ response (fst (chat self u)) = reply
    /\ messages (snd (chat self u))
       = messages self ++ [HumanMessage (strip u)] ++ saved
         ++ (if validate_input_length reply
             then [AIMessage (strip reply)] else [])
    /\ message_count (conversation_metadata (snd (chat self u)))
       = message_count (conversation_metadata self) + 1
         + (if validate_input_length reply then 1 else 0).
Proof.
  destruct (_validate_input u) eqn:Hv.
  - destruct (human_added self u Hv) as [_ [Hm1 [_ [_ Hc1]]]].
    destruct (predict (messages self ++ [HumanMessage (strip u)]) u)
      as [[reply saved]|e] eqn:Hp.
    + rewrite (chat_ok self u reply saved Hv Hp). simpl. intros _.
      exists reply, saved. split; [reflexivity|]. split; [reflexivity|].
      match goal with
      | |- context [get_conversation_summary ?s] =>
          destruct (get_conversation_summary_messages s) as [Hm Hc]
      end.
      rewrite Hm, Hc.
      destruct (validate_input_length reply) eqn:Hr.
      * rewrite (add_message_accepted reply false _ Hr). simpl.
        rewrite Hm1, Hc1. simpl. rewrite <- !app_assoc. split; reflexivity.
      * rewrite (add_message_rejected reply false _ Hr). simpl.
        rewrite Hm1, Hc1. simpl. rewrite app_nil_r, <- !app_assoc.
        split; [reflexivity|lia].
    + rewrite (chat_raise self u e Hv Hp). simpl. discriminate.
  - rewrite (chat_invalid self u Hv). simpl. discriminate.
Qed.

(** With a chain that saves each exchange itself and whose replies fit,
    a successful call leaves four messages: the manager's human turn,
    the chain's copy of the input and of the reply, the manager's
    assistant turn. *)
Lemma chat_stores_quad (self : SecureMemoryManager) (u : string) :
  chain_saves_exchange -> chain_replies_fit ->
  success (fst (chat self u)) = true ->
  messages (snd (chat self u))
  = messages self ++ turn_quad (u, fst (chat self u))
  /\ message_count (conversation_metadata (snd (chat self u)))
     = message_count (conversation_metadata self) + 2.
Proof.
  intros Hsave Hfit Hs.
  destruct (chat_success_shape self u Hs) as (reply & saved & Hp & Hr & Hm & Hc).
  rewrite Hm, Hc, (Hsave _ _ _ _ Hp).
  pose proof (Hfit _ _ _ _ Hp) as Hl. apply validate_input_length_iff in Hl.
  rewrite Hl. unfold turn_quad. simpl. rewrite Hr.
  split; [reflexivity|lia].
Qed.

Lemma chats_store_quads (inputs : list string) :
  chain_saves_exchange -> chain_replies_fit ->
  forall self,
    Forall (fun r => success r = true) (fst (chats self inputs)) ->
    messages (snd (chats self inputs))
    = messages self
      ++ concat (map turn_quad (combine inputs (fst (chats self inputs))))
    /\ map role_tag (messages (snd (chats self inputs)))
       = map role_tag (messages self)
         ++ concat (repeat ["human"; "human"; "ai"; "ai"] (length inputs))
    /\ length (messages (snd (chats self inputs)))
       = length (messages self) + 4 * length inputs
    /\ message_count (conversation_metadata (snd (chats self inputs)))
       = message_count (conversation_metadata self) + 2 * length inputs.
Proof.
  intros Hsave Hfit.
  induction inputs as [|u rest IH]; intros self HF.
  - simpl. rewrite !app_nil_r. repeat split; lia.
  - rewrite chats_cons in *. simpl in *.
    inversion HF as [|r rs Hr Hrs]; subst.
    destruct (chat_stores_quad self u Hsave Hfit Hr) as [Hm Hc].
    destruct (IH _ Hrs) as [H1 [H2 [H3 H4]]].
    rewrite H2, H3, H4, H1, Hm, Hc, !map_app, !length_app, <- !app_assoc.
    simpl. repeat split; lia.
Qed.

(** While the chain appends nothing itself, [message_count] is the
    number of stored messages after any calls on a new session. *)
Lemma chats_count_is_length (now : Timestamp) (inputs : list string) :
  chain_saves_nothing ->
  message_count (conversation_metadata (snd (chats (init now) inputs)))
  = length (messages (snd (chats (init now) inputs))).
Proof.
  intros Hchain.
  set (P := fun s : SecureMemoryManager =>
              message_count (conversation_metadata s) = length (messages s)).
  assert (Hadd : forall s m h, P s -> P (snd (add_message m h s))).
  { intros s m h H.
    destruct (validate_input_length m) eqn:Hl.
    - rewrite (add_message_accepted _ h s Hl). unfold P in *. simpl.
      rewrite length_app, H. reflexivity.
    - now rewrite (add_message_rejected _ h s Hl). }
  apply (chats_preserve P); [|reflexivity].
  apply chat_preserves.
  - intros s u _. apply Hadd.
  - intros s r. apply Hadd.
  - intros s h u r saved Hp HP. rewrite (Hchain _ _ _ _ Hp).
    unfold P, chain_saved in *. simpl. now rewrite app_nil_r.
  - intros s HP. unfold P in *.
    destruct (get_conversation_summary_messages s) as [-> ->]. exact HP.
Qed.


(* ================================================================== *)
(** ** The claims that depend on the chain and on the clock *)

(** C1, as the code has it.  No call ever removes a message: after any
    sequence of calls the message list is the earlier list followed by
    what was appended.  After [k] successful calls on a new session
    [total_messages] is the length of that whole list, at least [k]
    and never less than [message_count], next to a [window_size] that
    is always 10; only the context read for the chain is a window, the
    last [min(total_messages, 20)] messages.  When the chain appends
    nothing to the shared memory itself, [total_messages] equals
    [message_count]; when in addition its replies are within the limit,
    the list is exactly the [2k] human and assistant turns in order.
    When the chain saves each exchange itself, as LangChain's
    [ConversationChain] does, and its replies are within the limit, the
    list is the [4k] messages of the calls (sanitized input, the
    chain's copy of the input and of the reply, sanitized reply) and
    [message_count] is [2k]. *)
Theorem chats_keep_every_message (now : Timestamp) (inputs : list string) :
  let results := fst (chats (init now) inputs) in
  let self' := snd (chats (init now) inputs) in
  let stats := get_memory_stats self' in
  Forall (fun r => success r = true) results ->
  (forall self more, exists appended,
      messages (snd (chats self more)) = messages self ++ appended)
  /\ total_messages stats = length (messages self')
  /\ window_size stats = 10
  /\ length inputs <= total_messages stats
  /\ message_count (stats_metadata stats) <= total_messages stats
  /\ length (get_memory_variables self') = Nat.min (total_messages stats) 20
  /\ (exists older, messages self' = older ++ get_memory_variables self')
  /\ (chain_saves_nothing ->
      total_messages stats = message_count (stats_metadata stats))
  /\ (chain_saves_nothing -> chain_replies_fit ->
      messages self' = concat (map turn_pair (combine inputs results))
      /\ total_messages stats = 2 * length inputs
      /\ message_count (stats_metadata stats) = 2 * length inputs)
  /\ (chain_saves_exchange -> chain_replies_fit ->
      messages self' = concat (map turn_quad (combine inputs results))
      /\ total_messages stats = 4 * length inputs
      /\ message_count (stats_metadata stats) = 2 * length inputs).
Proof.
  intros results self' stats HF. subst stats. simpl.
  destruct (chats_extend inputs (init now)) as [app [Hm [Hs [Hc _]]]].
  fold self' in Hm, Hc. fold results in Hs. simpl in Hm, Hc.
  destruct (buffer_is_suffix (messages self')) as [Hb1 Hb2].
  split.
  { intros self more.
    destruct (chats_extend more self) as [a [Ha _]]. now exists a. }
  split; [reflexivity|]. split; [reflexivity|].
  split; [rewrite Hm; specialize (Hs HF); lia|].
  split; [rewrite Hm; lia|].
  split; [exact Hb1|].
  split; [eexists; exact Hb2|].
  split.
  { intros Hnone. symmetry. exact (chats_count_is_length now inputs Hnone). }
  split.
  { intros Hnone Hfit.
    assert (Hchain : chain_only_answers).
    { intros h i r s Hp. split; [exact (Hnone _ _ _ _ Hp)|].
      exact (Hfit _ _ _ _ Hp). }
    destruct (chats_store_pairs inputs Hchain (init now) HF) as [_ [H2 H3]].
    split; [exact (chats_store_turns inputs Hchain (init now) HF)|].
    split; [exact H2|exact H3]. }
  intros Hsave Hfit.
  destruct (chats_store_quads inputs Hsave Hfit (init now) HF)
    as [H1 [_ [H3 H4]]].
  split; [exact H1|]. split; [exact H3|exact H4].
Qed.

(** C4, as the code has it.  [clear_memory] returns [True] from every
    state and leaves no message, an empty digest and an empty summary
    memory; the statistics read afterwards report no message and zeroed
    counters, with the start time the clock shows at the clear: it is
    later than the previous one exactly when the clock has moved on
    since.  Clearing again gives what a single clear at that moment
    gives. *)
Theorem clear_memory_resets (now : Timestamp) (self : SecureMemoryManager) :
  let self' := snd (clear_memory now self) in
  let stats := get_memory_stats self' in
  fst (clear_memory now self) = true
  /\ messages self' = []
  /\ summary_buffer self' = ""
  /\ summary_messages self' = []
  /\ total_messages stats = 0
  /\ has_summary stats = false
  /\ message_count (stats_metadata stats) = 0
  /\ total_tokens (stats_metadata stats) = 0
  /\ start_time (stats_metadata stats) = now
  /\ ((start_time (conversation_metadata self)
       < start_time (stats_metadata stats))%Z
      <-> (start_time (conversation_metadata self) < now)%Z)
  /\ fst (get_conversation_summary self')
     = "No conversation history available."
  /\ (forall later, clear_memory later self' = clear_memory later self)
  /\ clear_memory now self' = (true, self').
Proof.
  simpl. repeat split; intros H; exact H.
Qed.


(** C6, as the code has it.  [chat] always returns a result dictionary.
    A failed result carries one of three fixed apologies as its
    response, with neither statistics nor summary, and names an error;
    when the chain's [predict] raises, the exception is caught, the
    response is the generic apology, and the error entry is the text of
    the exception.  A summarizer that raises does not fail the call:
    it is caught inside [get_conversation_summary], and [chat] answers
    with [success] true, the reply, and "Error generating conversation
    summary." as the summary. *)
Theorem chat_failure_is_structured (self : SecureMemoryManager) (u : string) :
  let r := fst (chat self u) in
  (success r = false ->
   In (response r)
     [ "I'm sorry, but your input doesn't meet our security requirements. Please try a shorter message.";
       "I'm sorry, but I couldn't process your message. Please try again.";
       "I'm sorry, but I encountered an error. Please try again." ]
   /\ error r <> None
   /\ memory_stats r = None
   /\ conversation_summary r = None)
  /\ (success r = true -> error r = None)
  /\ (forall e,
        _validate_input u = true ->
        predict (messages self ++ [HumanMessage (strip u)]) u = Raise e ->
        success r = false
        /\ response r
           = "I'm sorry, but I encountered an error. Please try again."
        /\ error r = Some e)
  /\ (forall reply saved e,
        _validate_input u = true ->
        predict (messages self ++ [HumanMessage (strip u)]) u
        = Ok (reply, saved) ->
        refold
          (human_texts
             (messages
                (snd (add_message reply false
                        (chain_saved saved (snd (add_message u true self)))))))
          (summary_buffer self)
        = Raise e ->
        success r = true
        /\ response r = reply
        /\ error r = None
        /\ conversation_summary r
           = Some "Error generating conversation summary.").
Proof.
  intros r. subst r.
  destruct (_validate_input u) eqn:Hv.
  - destruct (predict (messages self ++ [HumanMessage (strip u)]) u)
      as [[reply saved]|e] eqn:Hp.
    + rewrite (chat_ok self u reply saved Hv Hp). simpl.
      split; [discriminate|]. split; [reflexivity|].
      split; [discriminate|].
      intros reply' saved' e _ [= <- <-] Hr.
      split; [reflexivity|]. split; [reflexivity|]. split; [reflexivity|].
      set (self3 := snd (add_message reply false
                           (chain_saved saved (snd (add_message u true self)))))
        in *.
      assert (Hb : summary_buffer self3 = summary_buffer self).
      { subst self3.
        destruct (add_message_metadata reply false
                    (chain_saved saved (snd (add_message u true self))))
          as (_ & _ & _ & -> & _). simpl.
        destruct (human_added self u Hv) as (_ & _ & Hb & _). exact Hb. }
      assert (Hne : messages self3 <> []).
      { destruct (human_added self u Hv) as (_ & Hm1 & _).
        subst self3. destruct (validate_input_length reply) eqn:Hl.
        - rewrite (add_message_accepted reply false _ Hl). simpl.
          rewrite Hm1. intros H. apply app_eq_nil in H. destruct H as [_ H].
          discriminate.
        - rewrite (add_message_rejected reply false _ Hl). simpl.
          rewrite Hm1, <- app_assoc. intros H.
          apply app_eq_nil in H. destruct H as [_ H]. discriminate. }
      destruct (get_conversation_summary_refold self3 Hne) as [Hd _].
      rewrite Hd, Hb, Hr. reflexivity.
    + rewrite (chat_raise self u e Hv Hp). simpl.
      split; [|split; [discriminate|split]].
      * intros _. repeat split; [tauto|discriminate].
      * intros e' _ [= <-]. auto.
      * intros reply saved e' _ H. discriminate.
  - rewrite (chat_invalid self u Hv). simpl.
    split; [|split; [discriminate|split]].
    + intros _. repeat split; [tauto|discriminate].
    + intros e H. discriminate.
    + intros reply saved e H. discriminate.
Qed.

(** C9, as the code has it.  When the input is valid and the chain's
    reply is longer than [MAX_INPUT_LENGTH], the manager's append of
    the reply is refused and the refusal is ignored: [chat] still
    answers with [success] true and the reply, and [message_count]
    grows by one, for the human turn.  The message list gains the
    human turn followed by what the chain itself appended to the shared
    memory: nothing more when the chain appends nothing, so one turn;
    the chain's copy of the input and of the over-long reply when the
    chain saves each exchange itself, as LangChain's
    [ConversationChain] does, so three turns. *)
Theorem chat_ignores_refused_reply (self : SecureMemoryManager)
    (u reply : string) (saved : list BaseMessage) :
  _validate_input u = true ->
  predict (messages self ++ [HumanMessage (strip u)]) u = Ok (reply, saved) ->
  (len reply > MAX_INPUT_LENGTH)%Z ->
  let r := fst (chat self u) in
  let self' := snd (chat self u) in
  (forall s, add_message reply false s = (false, s))
  /\ success r = true
  /\ response r = reply
  /\ error r = None
  /\ messages self' = messages self ++ [HumanMessage (strip u)] ++ saved
  /\ message_count (conversation_metadata self')
     = message_count (conversation_metadata self) + 1
  /\ total_tokens (conversation_metadata self')
     = total_tokens (conversation_metadata self) + length (split (strip u))
  /\ (saved = [] ->
      messages self' = messages self ++ [HumanMessage (strip u)]
      /\ length (messages self') = length (messages self) + 1)
  /\ (chain_saves_exchange ->
      messages self'
      = messages self
        ++ [HumanMessage (strip u); HumanMessage u; AIMessage reply]
      /\ length (messages self') = length (messages self) + 3).
Proof.
  intros Hv Hp Hlong r self'.
  assert (Hrej : validate_input_length reply = false).
  { unfold validate_input_length. apply Z.leb_gt. lia. }
  assert (Hadd : forall s, add_message reply false s = (false, s))
    by (intros s; now apply add_message_rejected).
  subst r self'. rewrite (chat_ok self u reply saved Hv Hp).
  rewrite Hadd. simpl.
  destruct (get_conversation_summary_messages
              (chain_saved saved (snd (add_message u true self))))
    as [Hm Hc].
  rewrite Hm, Hc. simpl.
  destruct (human_added self u Hv) as [_ [Hm1 [_ [_ Hc1]]]].
  rewrite Hm1, Hc1. simpl. rewrite <- app_assoc.
  split; [exact Hadd|]. repeat (split; [reflexivity|]).
  split.
  - intros ->. rewrite app_nil_r. split; [reflexivity|].
    rewrite length_app. reflexivity.
  - intros Hsave. rewrite (Hsave _ _ _ _ Hp). simpl.
    split; [reflexivity|]. rewrite length_app. reflexivity.
Qed.



(** X18. After a call whose chain raised on a valid input, the next
    successful call on that new session is paired wrongly, whatever the
    chain saves and whatever the length of the reply: the first entry
    of the history shows the second input as the answer to the first.
    When the chain appended nothing on the second call and the reply is
    within the limit, that entry is the whole history and the reply is
    in no entry. *)
Theorem history_after_chain_error (now : Timestamp)
    (u1 u2 e reply : string) (saved : list BaseMessage) :
  _validate_input u1 = true ->
  predict [HumanMessage (strip u1)] u1 = Raise e ->
  _validate_input u2 = true ->
  predict [HumanMessage (strip u1); HumanMessage (strip u2)] u2
  = Ok (reply, saved) ->
  let self' := snd (chats (init now) [u1; u2]) in
  map success (fst (chats (init now) [u1; u2])) = [false; true]
  /\ (exists rest,
        messages self'
        = HumanMessage (strip u1) :: HumanMessage (strip u2) :: rest
        /\ get_conversation_history self'
           = {| human := strip u1; ai := strip u2 |} :: exchanges rest)
  /\ (saved = [] -> (len reply <= MAX_INPUT_LENGTH)%Z ->
      messages self'
      = [HumanMessage (strip u1); HumanMessage (strip u2);
         AIMessage (strip reply)]
      /\ get_conversation_history self'
         = [ {| human := strip u1; ai := strip u2 |} ]).
Proof.
  intros Hv1 Hp1 Hv2 Hp2.
  rewrite chats_cons. rewrite (chats_cons _ u2 []). cbn [chats fst snd map].
  rewrite (chat_raise (init now) u1 e Hv1 Hp1). cbn [fst snd].
  destruct (human_added (init now) u1 Hv1) as [_ [Hm1 _]].
  simpl in Hm1.
  set (s1 := snd (add_message u1 true (init now))) in *.
  assert (Hp2' : predict (messages s1 ++ [HumanMessage (strip u2)]) u2
                 = Ok (reply, saved)) by (rewrite Hm1; exact Hp2).
  assert (Hs : success (fst (chat s1 u2)) = true)
    by (rewrite (chat_ok s1 u2 reply saved Hv2 Hp2'); reflexivity).
  destruct (chat_success_shape s1 u2 Hs)
    as (reply' & saved' & Hp & _ & Hm & _).
  rewrite Hp2' in Hp. injection Hp as <- <-.
  rewrite Hm1 in Hm. simpl in Hm.
  split; [cbn [success internal_error]; now rewrite Hs|].
  split.
  - eexists. split; [exact Hm|].
    unfold get_conversation_history. rewrite history_is_exchanges, Hm.
    reflexivity.
  - intros -> Hl. apply validate_input_length_iff in Hl.
    rewrite Hl in Hm. simpl in Hm. split; [exact Hm|].
    unfold get_conversation_history. rewrite history_is_exchanges, Hm.
    reflexivity.
Qed.

End Chatbot.

(* ================================================================== *)
(** ** The program at work: default limit, concrete collaborators *)

(** The scenario of the design document: a greeting is answered and
    stored as two turns, then a 1200-character input is refused and the
    count stays at two. *)
Example greeting_then_long_input :
  let bot := answering_chain "I am fine." in
  let run :=
    chats DEFAULT_MAX_INPUT_LENGTH bot appending_summarizer (init 0%Z)
      ["Hello, how are you?"; replicate 1200 "A"%char] in
  map success (fst run) = [true; false]
  /\ messages (snd run)
     = [HumanMessage "Hello, how are you?"; AIMessage "I am fine."]
  /\ total_messages (get_memory_stats (snd run)) = 2.
Proof. vm_compute. repeat split. Qed.

Example validate_input_examples :
  map (_validate_input DEFAULT_MAX_INPUT_LENGTH)
    [ "Hello, how are you?"; ""; "   "; "Hello <script>alert('xss')</script>";
      "A description"; "my DATA: 1"; replicate 1000 "A"%char;
      replicate 1001 "A"%char ]
  = [ true; false; false; false; false; false; true; false ].
Proof. vm_compute. reflexivity. Qed.

Example split_examples :
  split "  hello   world  " = ["hello"; "world"]
  /\ strip "  hello   world  " = "hello   world"
  /\ lower "Hello <SCRIPT>" = "hello <script>".
Proof. vm_compute. repeat split. Qed.

Lemma answering_chain_only_answers (reply : string) :
  (len reply <= DEFAULT_MAX_INPUT_LENGTH)%Z ->
  chain_only_answers DEFAULT_MAX_INPUT_LENGTH (answering_chain reply).
Proof.
  intros Hl history input r saved H.
  unfold answering_chain in H. inversion H; subst. auto.
Qed.

(** With LangChain's own chain, which saves each exchange into the
    memory it was given, a call leaves four messages: the manager's
    human turn, the chain's pair, the manager's assistant turn. *)
Example conversation_chain_saves_too :
  let run :=
    chat DEFAULT_MAX_INPUT_LENGTH (ConversationChain (constant_llm "ok"))
      appending_summarizer (init 0%Z) " hi " in
  success (fst run) = true
  /\ messages (snd run)
     = [HumanMessage "hi"; HumanMessage " hi "; AIMessage "ok";
        AIMessage "ok"]
  /\ message_count (conversation_metadata (snd run)) = 2.
Proof. vm_compute. repeat split. Qed.

(** C1 fails as stated: six successful calls on a new session leave
    twelve messages, and [total_messages] is 12, above the
    [window_size] of 10 and equal to the lifetime [message_count]. *)
Lemma six_chats_exceed_window :
  let run :=
    chats DEFAULT_MAX_INPUT_LENGTH (answering_chain "ok")
      appending_summarizer (init 0%Z) hi6 in
  let stats := get_memory_stats (snd run) in
  Forall (fun r => success r = true) (fst run)
  /\ length (messages (snd run)) = 12
  /\ length (messages (snd run)) <> Nat.min (2 * 6) (window_size stats)
  /\ total_messages stats = 12
  /\ ~ total_messages stats <= window_size stats
  /\ total_messages stats = message_count (stats_metadata stats).
Proof.
  vm_compute.
  repeat split; try (repeat constructor; fail); try discriminate.
  intros H. repeat (apply le_S_n in H). inversion H.
Qed.

Lemma chat_rejects_invalid_input_witness :
  let long := replicate 1001 "A"%char in
  let bot := chat DEFAULT_MAX_INPUT_LENGTH (answering_chain "ok")
               appending_summarizer in
  (len long > DEFAULT_MAX_INPUT_LENGTH)%Z
  /\ bot (init 0%Z) long = (validation_failed, init 0%Z)
  /\ bot (init 0%Z) "Hello <SCRIPT>alert(1)</SCRIPT>"
     = (validation_failed, init 0%Z).
Proof.
  assert (H : (len (replicate 1001 "A"%char) > DEFAULT_MAX_INPUT_LENGTH)%Z)
    by (vm_compute; reflexivity).
  split; [exact H|].
  split.
  - destruct (chat_rejects_invalid_input DEFAULT_MAX_INPUT_LENGTH
                (answering_chain "ok") appending_summarizer (init 0%Z)
                (replicate 1001 "A"%char) (or_introl H))
      as (_ & _ & Hr & Hs & _).
    apply injective_projections; assumption.
  - destruct (chat_rejects_invalid_input DEFAULT_MAX_INPUT_LENGTH
                (answering_chain "ok") appending_summarizer (init 0%Z)
                "Hello <SCRIPT>alert(1)</SCRIPT>")
      as (_ & _ & Hr & Hs & _).
    + right. exists "script", "Hello <", "SCRIPT", ">alert(1)</SCRIPT>".
      split; [simpl; auto|]. split; reflexivity.
    + apply injective_projections; assumption.
Defined.

Lemma validate_input_false_iff_witness :
  _validate_input DEFAULT_MAX_INPUT_LENGTH "see <A HREF=JavaScript:x>" = false
  /\ _validate_input DEFAULT_MAX_INPUT_LENGTH "   " = false.
Proof.
  split.
  - apply (validate_input_false_iff DEFAULT_MAX_INPUT_LENGTH
             "see <A HREF=JavaScript:x>").
    right. right. exists "javascript:". split; [simpl; auto|].
    exists "see <a href=", "x>". reflexivity.
  - apply (validate_input_false_iff DEFAULT_MAX_INPUT_LENGTH "   ").
    right. left. intros c Hc. simpl in Hc.
    destruct Hc as [<-|[<-|[<-|[]]]]; reflexivity.
Defined.


(** C6 fails as stated: the text of the exception is in the result. *)
Lemma chat_result_carries_exception_text :
  let leaky :=
    failing_on "hello" "Incorrect API key provided: sk-test-1234" "ok" in
  let r :=
    fst (chat DEFAULT_MAX_INPUT_LENGTH leaky appending_summarizer
           (init 0%Z) "hello") in
  success r = false
  /\ response r = "I'm sorry, but I encountered an error. Please try again."
  /\ error r = Some "Incorrect API key provided: sk-test-1234".
Proof. vm_compute. repeat split. Qed.

Lemma summary_reads_human_turns_only_witness :
  get_conversation_summary appending_summarizer (init 0%Z)
  = ("No conversation history available.", init 0%Z)
  /\ fst (get_conversation_summary appending_summarizer hi_ok)
     = fst (get_conversation_summary appending_summarizer hi_long)
  /\ fst (get_conversation_summary appending_summarizer hi_ok)
     = ("Human: hi" ++ newline ++ "AI: ")%string.
Proof.
  destruct (summary_reads_human_turns_only appending_summarizer)
    as (He & Hd & Hh).
  split; [exact (He (init 0%Z) eq_refl)|].
  split.
  - apply (Hh hi_ok hi_long); try discriminate; reflexivity.
  - rewrite (Hd hi_ok) by discriminate. reflexivity.
Defined.

(** C8 fails as stated: right after one call, with nothing happening in
    between, two summary requests give different digests, and neither
    is the fold of the one visible human turn from nothing; the summary
    memory's own list grows with every request. *)
Lemma summary_requests_accumulate :
  let st :=
    snd (chat DEFAULT_MAX_INPUT_LENGTH (answering_chain "ok")
           appending_summarizer (init 0%Z) "hi") in
  let first := get_conversation_summary appending_summarizer st in
  let second := get_conversation_summary appending_summarizer (snd first) in
  let once := ("Human: hi" ++ newline ++ "AI: ")%string in
  messages st = [HumanMessage "hi"; AIMessage "ok"]
  /\ messages (snd first) = messages st
  /\ refold appending_summarizer (human_texts (messages st)) "" = Ok once
  /\ fst first = (once ++ once)%string
  /\ fst second = (once ++ once ++ once)%string
  /\ fst first <> fst second
  /\ fst first <> once
  /\ length (summary_messages st) = 2
  /\ length (summary_messages (snd first)) = 4
  /\ length (summary_messages (snd second)) = 6.
Proof. vm_compute. repeat split; discriminate. Qed.

Lemma summary_folds_into_kept_digest_witness :
  let once := ("Human: hi" ++ newline ++ "AI: ")%string in
  let first := get_conversation_summary appending_summarizer hi_ok in
  messages hi_ok <> []
  /\ refold appending_summarizer (human_texts (messages hi_ok))
       (summary_buffer hi_ok) = Ok once
  /\ fst first = once
  /\ fst (get_conversation_summary appending_summarizer (snd first))
     = (once ++ once)%string.
Proof.
  assert (Hne : messages hi_ok <> []) by discriminate.
  split; [exact Hne|]. split; [reflexivity|].
  destruct (summary_folds_into_kept_digest appending_summarizer hi_ok Hne)
    as (_ & _ & _ & H).
  destruct (H _ eq_refl) as (H1 & _ & H3).
  split; [exact H1|]. rewrite H3. reflexivity.
Defined.

Lemma add_message_stores_sanitized_witness :
  let self' :=
    snd (add_message DEFAULT_MAX_INPUT_LENGTH "  hello   big world "
           false (init 0%Z)) in
  fst (add_message DEFAULT_MAX_INPUT_LENGTH "  hello   big world "
         false (init 0%Z)) = true
  /\ messages self' = [AIMessage "hello   big world"]
  /\ message_count (conversation_metadata self') = 1
  /\ total_tokens (conversation_metadata self') = 3.
Proof.
  assert (Ha : fst (add_message DEFAULT_MAX_INPUT_LENGTH
                      "  hello   big world " false (init 0%Z)) = true)
    by reflexivity.
  split; [exact Ha|].
  destruct (add_message_stores_sanitized DEFAULT_MAX_INPUT_LENGTH
              "  hello   big world " false (init 0%Z) Ha)
    as (turn & Hm & Hk & _ & Hc & _ & _ & _ & Hn & Ht & _).
  destruct turn as [c|c]; [discriminate Hk|].
  simpl in Hc. subst c.
  split; [exact Hm|]. split; [exact Hn|exact Ht].
Defined.

(* ================================================================== *)
(** ** The further properties at work *)

Example file_type_examples :
  map (validate_file_type DEFAULT_ALLOWED_FILE_TYPES)
    [ "notes.txt"; "Report.PDF"; "archive.tar.gz"; "docx"; "photo.png";
      "letter.doc."; "" ]
  = [ true; true; false; true; false; false; false ].
Proof. vm_compute. reflexivity. Qed.

Example cli_branch_examples :
  map (interactive_chat_branch DEFAULT_MAX_INPUT_LENGTH)
    [ "  hello there "; "   "; " /CLEAR"; replicate 1001 "a"%char ]
  = [ Chat "hello there"; EmptyInput; SpecialCommand "/CLEAR";
      MessageTooLong ].
Proof. vm_compute. reflexivity. Qed.

Lemma failing_on_saves_nothing (bad e reply : string) :
  chain_saves_nothing (failing_on bad e reply).
Proof.
  intros history input r saved H. unfold failing_on in H.
  destruct (String.eqb input bad); inversion H. reflexivity.
Qed.

Lemma sanitize_message_bounds_witness :
  (0 <= 5)%Z
  /\ (len (_sanitize_message 5 "  hello world ") <= 5)%Z
  /\ _sanitize_message 5 "  hello world " = "hello".
Proof.
  assert (H : (0 <= 5)%Z) by lia.
  split; [exact H|].
  split; [|reflexivity].
  exact (proj1 (sanitize_message_bounds 5 "  hello world " H)).
Defined.

Lemma sanitize_message_idempotent_witness :
  validate_input_length DEFAULT_MAX_INPUT_LENGTH "  hello world " = true
  /\ _sanitize_message DEFAULT_MAX_INPUT_LENGTH
       (_sanitize_message DEFAULT_MAX_INPUT_LENGTH "  hello world ")
     = _sanitize_message DEFAULT_MAX_INPUT_LENGTH "  hello world ".
Proof.
  split; [reflexivity|].
  exact (sanitize_message_idempotent DEFAULT_MAX_INPUT_LENGTH
           "  hello world " eq_refl).
Defined.

Lemma add_message_counts_words_of_input_witness :
  fst (add_message DEFAULT_MAX_INPUT_LENGTH "  a  b " true hi_ok) = true
  /\ total_tokens
       (conversation_metadata
          (snd (add_message DEFAULT_MAX_INPUT_LENGTH "  a  b " true hi_ok)))
     = 2 + 2.
Proof.
  split; [reflexivity|].
  exact (add_message_counts_words_of_input DEFAULT_MAX_INPUT_LENGTH
           "  a  b " true hi_ok eq_refl).
Defined.

Lemma add_message_stores_blank_turn_witness :
  all_space "   "
  /\ (len "   " <= DEFAULT_MAX_INPUT_LENGTH)%Z
  /\ messages (snd (add_message DEFAULT_MAX_INPUT_LENGTH "   " false hi_ok))
     = [HumanMessage "hi"; AIMessage "ok"; AIMessage ""].
Proof.
  assert (Hs : all_space "   ").
  { intros c Hc. simpl in Hc.
    destruct Hc as [<-|[<-|[<-|[]]]]; reflexivity. }
  assert (Hl : (len "   " <= DEFAULT_MAX_INPUT_LENGTH)%Z)
    by (vm_compute; discriminate).
  split; [exact Hs|]. split; [exact Hl|].
  destruct (add_message_stores_blank_turn DEFAULT_MAX_INPUT_LENGTH
              "   " false hi_ok Hs Hl) as (_ & Hm & _).
  exact Hm.
Defined.

Lemma validate_input_stable_under_strip_witness :
  _validate_input DEFAULT_MAX_INPUT_LENGTH "  hello there " = true
  /\ _validate_input DEFAULT_MAX_INPUT_LENGTH (strip "  hello there ") = true.
Proof.
  split; [reflexivity|].
  exact (validate_input_stable_under_strip DEFAULT_MAX_INPUT_LENGTH
           "  hello there " eq_refl).
Defined.

Lemma chat_locked_by_non_positive_limit_witness :
  (0 <= 0)%Z
  /\ chat 0 (answering_chain "ok") appending_summarizer hi_ok "hi"
     = (validation_failed, hi_ok).
Proof.
  assert (H : (0 <= 0)%Z) by lia.
  split; [exact H|].
  exact (chat_locked_by_non_positive_limit 0 (answering_chain "ok")
           appending_summarizer hi_ok "hi" H).
Defined.

Lemma chat_keeps_human_turn_on_chain_error_witness :
  let flaky := failing_on "hello" "provider unavailable" "ok" in
  let run :=
    chat DEFAULT_MAX_INPUT_LENGTH flaky appending_summarizer hi_ok "hello" in
  _validate_input DEFAULT_MAX_INPUT_LENGTH "hello" = true
  /\ flaky (messages hi_ok ++ [HumanMessage (strip "hello")]) "hello"
     = Raise "provider unavailable"
  /\ success (fst run) = false
  /\ messages (snd run)
     = [HumanMessage "hi"; AIMessage "ok"; HumanMessage "hello"].
Proof.
  split; [reflexivity|]. split; [reflexivity|].
  destruct (chat_keeps_human_turn_on_chain_error DEFAULT_MAX_INPUT_LENGTH
              (failing_on "hello" "provider unavailable" "ok")
              appending_summarizer hi_ok "hello" "provider unavailable"
              eq_refl eq_refl) as (Hs & Hm & _).
  split; [exact Hs|exact Hm].
Defined.

Lemma chat_returns_statistics_read_before_summary_witness :
  let run :=
    chat DEFAULT_MAX_INPUT_LENGTH (answering_chain "ok")
      appending_summarizer (init 0%Z) "hi" in
  success (fst run) = true
  /\ (exists stats,
        memory_stats (fst run) = Some stats
        /\ total_messages stats = 2
        /\ has_summary stats = false)
  /\ has_summary (get_memory_stats (snd run)) = true.
Proof.
  assert (Hs : success
                 (fst (chat DEFAULT_MAX_INPUT_LENGTH (answering_chain "ok")
                         appending_summarizer (init 0%Z) "hi")) = true)
    by reflexivity.
  split; [exact Hs|].
  destruct (chat_returns_statistics_read_before_summary
              DEFAULT_MAX_INPUT_LENGTH (answering_chain "ok")
              appending_summarizer (init 0%Z) "hi" Hs)
    as (stats & summary & H1 & _ & H3 & _ & H5 & H6).
  split; [|exact H6].
  exists stats. split; [exact H1|]. split; [exact H3|exact H5].
Defined.

Lemma metadata_describe_stored_list_witness :
  let flaky := failing_on "b" "provider unavailable" "ok then" in
  let self' :=
    snd (chats DEFAULT_MAX_INPUT_LENGTH flaky appending_summarizer
           (init 0%Z) ["b"; "a question"; "   "]) in
  chain_saves_nothing flaky
  /\ length (messages self') = 3
  /\ message_count (conversation_metadata self') = 3
  /\ total_tokens (conversation_metadata self') = 5.
Proof.
  assert (Hc : chain_saves_nothing
                 (failing_on "b" "provider unavailable" "ok then"))
    by apply failing_on_saves_nothing.
  split; [exact Hc|]. split; [reflexivity|].
  destruct (metadata_describe_stored_list DEFAULT_MAX_INPUT_LENGTH
              (failing_on "b" "provider unavailable" "ok then")
              appending_summarizer 0%Z ["b"; "a question"; "   "] Hc)
    as [H1 H2].
  split; [exact H1|exact H2].
Defined.

Lemma stored_messages_are_sanitized_witness :
  let flaky := failing_on "b" "provider unavailable" "  ok then " in
  chain_saves_nothing flaky
  /\ Forall
       (fun m =>
          (len (content m) <= DEFAULT_MAX_INPUT_LENGTH)%Z
          /\ strip (content m) = content m
          /\ (is_human_message m = true ->
              _validate_input DEFAULT_MAX_INPUT_LENGTH (content m) = true))
       (messages
          (snd (chats DEFAULT_MAX_INPUT_LENGTH flaky appending_summarizer
                  (init 0%Z) ["b"; " a question "]))).
Proof.
  assert (Hc : chain_saves_nothing
                 (failing_on "b" "provider unavailable" "  ok then "))
    by apply failing_on_saves_nothing.
  split; [exact Hc|].
  exact (stored_messages_are_sanitized DEFAULT_MAX_INPUT_LENGTH
           (failing_on "b" "provider unavailable" "  ok then ")
           appending_summarizer 0%Z ["b"; " a question "] Hc).
Defined.

Lemma summary_request_records_exchanges_witness :
  refold appending_summarizer (human_texts (messages hi_long))
    (summary_buffer hi_long)
  = Ok ("Human: hi" ++ newline ++ "AI: ")%string
  /\ summary_messages
       (snd (get_conversation_summary appending_summarizer hi_long))
     = [HumanMessage "hi"; AIMessage ""].
Proof.
  split; [reflexivity|].
  exact (summary_request_records_exchanges appending_summarizer hi_long
           _ eq_refl).
Defined.

Lemma export_determines_messages_witness :
  let later := snd (get_conversation_summary appending_summarizer hi_ok) in
  map (fun e => (entry_type e, entry_content e))
    (exported_messages
       (fst (export_memory appending_summarizer (ticking 0) hi_ok)))
  = map (fun e => (entry_type e, entry_content e))
      (exported_messages
         (fst (export_memory appending_summarizer (ticking 100) later)))
  /\ messages hi_ok = messages later.
Proof.
  assert (H :
    map (fun e => (entry_type e, entry_content e))
      (exported_messages
         (fst (export_memory appending_summarizer (ticking 0) hi_ok)))
    = map (fun e => (entry_type e, entry_content e))
        (exported_messages
           (fst (export_memory appending_summarizer (ticking 100)
                   (snd (get_conversation_summary appending_summarizer
                           hi_ok))))))
    by reflexivity.
  split; [exact H|].
  exact (export_determines_messages appending_summarizer (ticking 0)
           (ticking 100) hi_ok _ H).
Defined.

Lemma window_slides_on_append_witness :
  let full :=
    snd (chats DEFAULT_MAX_INPUT_LENGTH (answering_chain "ok")
           appending_summarizer (init 0%Z) (hi6 ++ hi6)) in
  let self' := snd (add_message DEFAULT_MAX_INPUT_LENGTH " bye " true full) in
  fst (add_message DEFAULT_MAX_INPUT_LENGTH " bye " true full) = true
  /\ length (messages full) = 24
  /\ get_memory_variables self'
     = tl (get_memory_variables full) ++ [HumanMessage "bye"]
  /\ length (get_memory_variables self') <= 20.
Proof.
  assert (Ha : fst (add_message DEFAULT_MAX_INPUT_LENGTH " bye " true
                      (snd (chats DEFAULT_MAX_INPUT_LENGTH
                              (answering_chain "ok") appending_summarizer
                              (init 0%Z) (hi6 ++ hi6)))) = true)
    by reflexivity.
  split; [exact Ha|]. split; [reflexivity|].
  exact (window_slides_on_append DEFAULT_MAX_INPUT_LENGTH " bye " true _ Ha).
Defined.

Lemma validate_file_type_reads_last_extension_witness :
  ~ In "."%char (list_ascii_of_string "PDF")
  /\ validate_file_type DEFAULT_ALLOWED_FILE_TYPES "report.final.PDF" = true
  /\ validate_file_type DEFAULT_ALLOWED_FILE_TYPES "PDF" = true.
Proof.
  assert (Hn : ~ In "."%char (list_ascii_of_string "PDF")).
  { simpl. intros [H|[H|[H|[]]]]; discriminate H. }
  split; [exact Hn|].
  destruct (validate_file_type_reads_last_extension
              DEFAULT_ALLOWED_FILE_TYPES "report.final" "PDF" Hn)
    as [H1 H2].
  split; [exact H1|exact H2].
Defined.

(* ================================================================== *)
(** ** The chain-dependent claims at work *)

Lemma ConversationChain_saves_exchange (llm : LLM) :
  chain_saves_exchange (ConversationChain llm).
Proof.
  intros history input reply saved H. unfold ConversationChain in H.
  destruct (llm (buffer history) input); inversion H. reflexivity.
Qed.

Lemma ConversationChain_replies_fit (limit : Z) (llm : LLM) :
  (forall context input reply,
      llm context input = Ok reply -> (len reply <= limit)%Z) ->
  chain_replies_fit limit (ConversationChain llm).
Proof.
  intros Hl history input reply saved H. unfold ConversationChain in H.
  destruct (llm (buffer history) input) as [r|e] eqn:E; inversion H; subst.
  exact (Hl _ _ _ E).
Qed.

Lemma answering_chain_saves_nothing (reply : string) :
  chain_saves_nothing (answering_chain reply).
Proof.
  intros history input r saved H. unfold answering_chain in H.
  inversion H. reflexivity.
Qed.

Lemma answering_chain_replies_fit (reply : string) :
  (len reply <= DEFAULT_MAX_INPUT_LENGTH)%Z ->
  chain_replies_fit DEFAULT_MAX_INPUT_LENGTH (answering_chain reply).
Proof.
  intros Hl history input r saved H. unfold answering_chain in H.
  inversion H; subst. exact Hl.
Qed.

(** A summarizer that raises does not fail the call. *)
Example summarizer_failure_keeps_success :
  let r :=
    fst (chat DEFAULT_MAX_INPUT_LENGTH (answering_chain "ok")
           (failing_summarizer "rate limit") (init 0%Z) "hi") in
  success r = true
  /\ error r = None
  /\ conversation_summary r = Some "Error generating conversation summary.".
Proof. vm_compute. repeat split. Qed.

Lemma chats_keep_every_message_witness :
  let run :=
    chats DEFAULT_MAX_INPUT_LENGTH (answering_chain "ok")
      appending_summarizer (init 0%Z) hi6 in
  let run' :=
    chats DEFAULT_MAX_INPUT_LENGTH (ConversationChain (constant_llm "ok"))
      appending_summarizer (init 0%Z) ["hi"; "there"] in
  Forall (fun r => success r = true) (fst run)
  /\ total_messages (get_memory_stats (snd run)) = 2 * length hi6
  /\ length (get_memory_variables (snd run)) = 12
  /\ Forall (fun r => success r = true) (fst run')
  /\ total_messages (get_memory_stats (snd run')) = 4 * 2
  /\ message_count (conversation_metadata (snd run')) = 2 * 2.
Proof.
  assert (HF : Forall (fun r => success r = true)
                 (fst (chats DEFAULT_MAX_INPUT_LENGTH (answering_chain "ok")
                         appending_summarizer (init 0%Z) hi6)))
    by (vm_compute; repeat constructor).
  assert (Hn : chain_saves_nothing (answering_chain "ok"))
    by apply answering_chain_saves_nothing.
  assert (Hf : chain_replies_fit DEFAULT_MAX_INPUT_LENGTH
                 (answering_chain "ok"))
    by (apply answering_chain_replies_fit; vm_compute; discriminate).
  destruct (chats_keep_every_message DEFAULT_MAX_INPUT_LENGTH
              (answering_chain "ok") appending_summarizer 0%Z hi6 HF)
    as (_ & _ & _ & _ & _ & Hw & _ & _ & Hp & _).
  destruct (Hp Hn Hf) as (_ & Ht & _).
  assert (HF' : Forall (fun r => success r = true)
                  (fst (chats DEFAULT_MAX_INPUT_LENGTH
                          (ConversationChain (constant_llm "ok"))
                          appending_summarizer (init 0%Z) ["hi"; "there"])))
    by (vm_compute; repeat constructor).
  assert (Hs : chain_saves_exchange (ConversationChain (constant_llm "ok")))
    by apply ConversationChain_saves_exchange.
  assert (Hf' : chain_replies_fit DEFAULT_MAX_INPUT_LENGTH
                  (ConversationChain (constant_llm "ok"))).
  { apply ConversationChain_replies_fit. intros c i r H.
    inversion H; subst. vm_compute. discriminate. }
  destruct (chats_keep_every_message DEFAULT_MAX_INPUT_LENGTH
              (ConversationChain (constant_llm "ok")) appending_summarizer
              0%Z ["hi"; "there"] HF')
    as (_ & _ & _ & _ & _ & _ & _ & _ & _ & Hq).
  destruct (Hq Hs Hf') as (_ & Ht' & Hc').
  split; [exact HF|]. split; [exact Ht|].
  split; [rewrite Hw, Ht; reflexivity|].
  split; [exact HF'|]. split; [exact Ht'|exact Hc'].
Defined.

(** C4 fails as stated: a clear made at the clock reading of the start
    leaves an equal [start_time], and one made after the local clock
    was set back leaves an earlier one. *)
Lemma clear_need_not_advance_start_time :
  let same := snd (clear_memory 0%Z (init 0%Z)) in
  let back := snd (clear_memory 0%Z (init 3600%Z)) in
  fst (clear_memory 0%Z (init 0%Z)) = true
  /\ start_time (stats_metadata (get_memory_stats same))
     = start_time (conversation_metadata (init 0%Z))
  /\ ~ (start_time (conversation_metadata (init 0%Z))
        < start_time (stats_metadata (get_memory_stats same)))%Z
  /\ ~ (start_time (conversation_metadata (init 3600%Z))
        < start_time (stats_metadata (get_memory_stats back)))%Z.
Proof. vm_compute. repeat split; intros H; discriminate H. Qed.

Lemma clear_memory_resets_witness :
  let used :=
    snd (chat DEFAULT_MAX_INPUT_LENGTH (answering_chain "ok")
           appending_summarizer (init 0%Z) "hi") in
  (start_time (conversation_metadata used) < 5)%Z
  /\ length (messages used) = 2
  /\ (start_time (conversation_metadata used)
      < start_time (conversation_metadata (snd (clear_memory 5%Z used))))%Z
  /\ total_messages (get_memory_stats (snd (clear_memory 5%Z used))) = 0.
Proof.
  assert (H : (start_time (conversation_metadata
                 (snd (chat DEFAULT_MAX_INPUT_LENGTH (answering_chain "ok")
                         appending_summarizer (init 0%Z) "hi"))) < 5)%Z)
    by (vm_compute; reflexivity).
  split; [exact H|]. split; [reflexivity|].
  destruct (clear_memory_resets appending_summarizer 5%Z
              (snd (chat DEFAULT_MAX_INPUT_LENGTH (answering_chain "ok")
                      appending_summarizer (init 0%Z) "hi")))
    as (_ & _ & _ & _ & Ht & _ & _ & _ & _ & Hlater & _).
  split; [exact (proj2 Hlater H)|exact Ht].
Defined.


Lemma chat_failure_is_structured_witness :
  let leaky := failing_on "hello" "connection reset" "ok" in
  let r :=
    fst (chat DEFAULT_MAX_INPUT_LENGTH leaky appending_summarizer
           (init 0%Z) "hello") in
  let r' :=
    fst (chat DEFAULT_MAX_INPUT_LENGTH (answering_chain "ok")
           (failing_summarizer "rate limit") (init 0%Z) "hello") in
  _validate_input DEFAULT_MAX_INPUT_LENGTH "hello" = true
  /\ leaky (messages (init 0%Z) ++ [HumanMessage (strip "hello")]) "hello"
     = Raise "connection reset"
  /\ success r = false
  /\ response r = "I'm sorry, but I encountered an error. Please try again."
  /\ error r = Some "connection reset"
  /\ success r' = true
  /\ conversation_summary r' = Some "Error generating conversation summary.".
Proof.
  split; [reflexivity|]. split; [reflexivity|].
  destruct (chat_failure_is_structured DEFAULT_MAX_INPUT_LENGTH
              (failing_on "hello" "connection reset" "ok")
              appending_summarizer (init 0%Z) "hello") as (_ & _ & H & _).
  destruct (H "connection reset" eq_refl eq_refl) as (H1 & H2 & H3).
  destruct (chat_failure_is_structured DEFAULT_MAX_INPUT_LENGTH
              (answering_chain "ok") (failing_summarizer "rate limit")
              (init 0%Z) "hello") as (_ & _ & _ & H').
  destruct (H' "ok" [] "rate limit" eq_refl eq_refl eq_refl)
    as (H4 & _ & _ & H5).
  split; [exact H1|]. split; [exact H2|]. split; [exact H3|].
  split; [exact H4|exact H5].
Defined.

(** C9 fails as stated: with the chain the chatbot builds, a reply over
    the limit is stored all the same, by the chain, and the call leaves
    three messages, not the human turn alone. *)
Lemma refused_reply_is_stored_by_the_chain :
  let wordy := replicate 1001 "x"%char in
  let run :=
    chat DEFAULT_MAX_INPUT_LENGTH (ConversationChain (constant_llm wordy))
      appending_summarizer (init 0%Z) "hi" in
  _validate_input DEFAULT_MAX_INPUT_LENGTH "hi" = true
  /\ (len wordy > DEFAULT_MAX_INPUT_LENGTH)%Z
  /\ success (fst run) = true
  /\ messages (snd run)
     = [HumanMessage "hi"; HumanMessage "hi"; AIMessage wordy]
  /\ length (messages (snd run)) <> length (messages (init 0%Z)) + 1
  /\ In (AIMessage wordy) (messages (snd run)).
Proof.
  vm_compute.
  repeat split; try discriminate. right. right. left. reflexivity.
Qed.

Lemma chat_ignores_refused_reply_witness :
  let wordy := replicate 1001 "x"%char in
  let r :=
    chat DEFAULT_MAX_INPUT_LENGTH (answering_chain wordy)
      appending_summarizer (init 0%Z) "  tell me everything " in
  let r' :=
    chat DEFAULT_MAX_INPUT_LENGTH (ConversationChain (constant_llm wordy))
      appending_summarizer (init 0%Z) " hi " in
  _validate_input DEFAULT_MAX_INPUT_LENGTH "  tell me everything " = true
  /\ (len wordy > DEFAULT_MAX_INPUT_LENGTH)%Z
  /\ success (fst r) = true
  /\ response (fst r) = wordy
  /\ messages (snd r) = [HumanMessage "tell me everything"]
  /\ message_count (conversation_metadata (snd r)) = 1
  /\ messages (snd r')
     = [HumanMessage "hi"; HumanMessage " hi "; AIMessage wordy]
  /\ message_count (conversation_metadata (snd r')) = 1.
Proof.
  assert (Hv : _validate_input DEFAULT_MAX_INPUT_LENGTH
                 "  tell me everything " = true) by reflexivity.
  assert (Hl : (len (replicate 1001 "x"%char) > DEFAULT_MAX_INPUT_LENGTH)%Z)
    by (vm_compute; reflexivity).
  split; [exact Hv|]. split; [exact Hl|].
  destruct (chat_ignores_refused_reply DEFAULT_MAX_INPUT_LENGTH
              (answering_chain (replicate 1001 "x"%char))
              appending_summarizer (init 0%Z) "  tell me everything "
              (replicate 1001 "x"%char) [] Hv eq_refl Hl)
    as (_ & Hs & Hr & _ & _ & Hc & _ & Hm & _).
  destruct (Hm eq_refl) as [Hm1 _].
  destruct (chat_ignores_refused_reply DEFAULT_MAX_INPUT_LENGTH
              (ConversationChain (constant_llm (replicate 1001 "x"%char)))
              appending_summarizer (init 0%Z) " hi "
              (replicate 1001 "x"%char)
              [HumanMessage " hi "; AIMessage (replicate 1001 "x"%char)]
              eq_refl eq_refl Hl)
    as (_ & _ & _ & _ & _ & Hc' & _ & _ & Hq).
  destruct (Hq (ConversationChain_saves_exchange _)) as [Hm' _].
  split; [exact Hs|]. split; [exact Hr|].
  split; [exact Hm1|]. split; [exact Hc|].
  split; [exact Hm'|exact Hc'].
Defined.


Lemma history_after_chain_error_witness :
  let flaky := failing_on "b" "provider unavailable" "ok" in
  let run :=
    chats DEFAULT_MAX_INPUT_LENGTH flaky appending_summarizer (init 0%Z)
      ["b"; "a"] in
  _validate_input DEFAULT_MAX_INPUT_LENGTH "b" = true
  /\ _validate_input DEFAULT_MAX_INPUT_LENGTH "a" = true
  /\ (len "ok" <= DEFAULT_MAX_INPUT_LENGTH)%Z
  /\ messages (snd run)
     = [HumanMessage "b"; HumanMessage "a"; AIMessage "ok"]
  /\ get_conversation_history (snd run) = [ {| human := "b"; ai := "a" |} ].
Proof.
  assert (Hl : (len "ok" <= DEFAULT_MAX_INPUT_LENGTH)%Z)
    by (vm_compute; discriminate).
  split; [reflexivity|]. split; [reflexivity|]. split; [exact Hl|].
  destruct (history_after_chain_error DEFAULT_MAX_INPUT_LENGTH
              (failing_on "b" "provider unavailable" "ok")
              appending_summarizer 0%Z "b" "a" "provider unavailable" "ok" []
              eq_refl eq_refl eq_refl eq_refl) as (_ & _ & H).
  destruct (H eq_refl Hl) as [Hm Hh].
  split; [exact Hm|exact Hh].
Defined.
